(** * Reconciliation engine of the INWX webhook provider for external-dns

    A shallow embedding of [provider/provider.go] (zone resolution, record
    location, the listing path and the three-phase change application), of
    the client interface of [provider/client_wrapper.go] and of the in-memory
    test double [MockClientWrapper], followed by the properties of the
    specification that were checked against them.

    Go strings are byte sequences: they are [string] here, [len] is
    [String.length].  Go's [int], [int64] and [endpoint.TTL] are [Z]; no
    arithmetic is performed on them by the code below, so no wrap-around
    occurs.  A nil slice and an empty slice are both the empty list (the code
    only takes their length, indexes them and ranges over them).  The
    endpoints of a change set and the slices returned by the client are
    taken to be non-nil pointers.  A Go panic is an outcome of its own
    ([Panic]): it leaves the loops, runs the deferred logout and is not an
    error value. *)

From Stdlib Require Import String ZArith List Lia Bool.
From stdpp Require Import gmap strings list fin_maps.

Set Warnings "-clear-no-such-hyp".
Open Scope string_scope.
Open Scope list_scope.

(** ** Go's [strings] package *)

(** [strings.HasSuffix(s, suffix)]:
    [len(s) >= len(suffix) && s[len(s)-len(suffix):] == suffix]. *)
Definition HasSuffix (s suffix : string) : bool :=
  (String.length suffix <=? String.length s)%nat
  && String.eqb
       (substring (String.length s - String.length suffix)
                  (String.length suffix) s)
       suffix.

(** [strings.TrimSuffix(s, suffix)]: [s] without the trailing [suffix], and
    [s] itself when it does not end in [suffix]. *)
Definition TrimSuffix (s suffix : string) : string :=
  if HasSuffix s suffix
  then substring 0 (String.length s - String.length suffix) s
  else s.

(** A zone name [z] is a suffix of a name [n]. *)
Definition is_suffix (z n : string) : Prop := exists p, n = p +:+ z.

(** ** Data model *)

(** [endpoint.Endpoint], restricted to the fields the provider reads. *)
Module Endpoint.
Record t : Type := mk {
    DNSName : string;
    RecordType : string;
    RecordTTL : Z;
    Targets : list string
}.
End Endpoint.
Abbreviation Endpoint := Endpoint.t.

(** [inwx.NameserverRecord]. *)
Module NameserverRecord.
Record t : Type := mk {
    ID : Z;
    Name : string;
    Type_ : string;
    Content : string;
    TTL : Z;
    Priority : Z
}.
End NameserverRecord.
Abbreviation NameserverRecord := NameserverRecord.t.

(** [inwx.NameserverRecordRequest]; [Priority] is never set by the provider
    and keeps Go's zero value. *)
Module NameserverRecordRequest.
Record t : Type := mk {
    Domain : string;
    Name : string;
    Type_ : string;
    Content : string;
    TTL : Z;
    Priority : Z
}.
End NameserverRecordRequest.
Abbreviation NameserverRecordRequest := NameserverRecordRequest.t.

(** [plan.Changes]. *)
Module Changes.
Record t : Type := mk {
    Create : list Endpoint;
    UpdateOld : list Endpoint;
    UpdateNew : list Endpoint;
    Delete : list Endpoint
}.
End Changes.
Abbreviation Changes := Changes.t.

(** Go [error] values, by the place that builds them. *)
Inductive error : Type :=
| ErrNoMatchingZone (ep : Endpoint)
    (* "unable find matching zone for the endpoint %s" *)
| ErrUnmappedTargets
    (* "failed to map all endpoint targets to entries" *)
| ErrApplyChanges (n : nat)
    (* "encountered %d errors while applying changes" *)
| ErrZoneInfo (zone : string) (cause : error)
    (* "unable to query DNS zone info for zone '%v': %v" *)
| ErrClient (msg : string).
    (* an error handed back by the client wrapper *)

#[global] Instance Endpoint_eq_dec : EqDecision Endpoint.
Proof. solve_decision. Defined.
#[global] Instance NameserverRecord_eq_dec : EqDecision NameserverRecord.
Proof. solve_decision. Defined.
#[global] Instance NameserverRecordRequest_eq_dec :
  EqDecision NameserverRecordRequest.
Proof. solve_decision. Defined.
#[global] Instance error_eq_dec : EqDecision error.
Proof. solve_decision. Defined.

(** ** Zone Resolver: [getZone] *)

(** One iteration of the loop of [getZone]: the pair is
    [(matchZoneName, err)]. *)
Definition getZone_step (ep : Endpoint) (acc : string * option error)
    (zone : string) : string * option error :=
  if HasSuffix (Endpoint.DNSName ep) zone
     && (String.length (fst acc) <? String.length zone)%nat
  then (zone, None)
  else acc.

Definition getZone (zones : list string) (ep : Endpoint)
    : string * option error :=
  fold_left (getZone_step ep) zones ("", Some (ErrNoMatchingZone ep)).

(** ** Record Locator: [getRecIDs] *)

(** The name compared with the endpoint's DNS name inside the loop
    ([targetDNSName]). *)
Definition targetDNSName (zone : string) (record : NameserverRecord) : string :=
  if String.eqb (NameserverRecord.Name record) ""
  then zone
  else NameserverRecord.Name record +:+ "." +:+ zone.

(** Body of the inner loop over the records of the snapshot. *)
Definition getRecIDs_record (zone : string) (ep : Endpoint) (target : string)
    (recIDs : list Z) (record : NameserverRecord) : list Z :=
  if String.eqb (Endpoint.RecordType ep) (NameserverRecord.Type_ record)
     && String.eqb target (NameserverRecord.Content record)
     && String.eqb (targetDNSName zone record) (Endpoint.DNSName ep)
  then recIDs ++ [NameserverRecord.ID record]
  else recIDs.

(** Body of the outer loop over the targets. *)
Definition getRecIDs_target (zone : string) (records : list NameserverRecord)
    (ep : Endpoint) (recIDs : list Z) (target : string) : list Z :=
  fold_left (getRecIDs_record zone ep target) records recIDs.

Definition getRecIDs (zone : string) (records : list NameserverRecord)
    (ep : Endpoint) : list Z * option error :=
  let recIDs :=
    fold_left (getRecIDs_target zone records ep) (Endpoint.Targets ep) [] in
  if negb (length recIDs =? length (Endpoint.Targets ep))%nat
  then ([], Some ErrUnmappedTargets)
  else (recIDs, None).

(** *** The Record Locator in the words of the specification *)

(** "record type equals the endpoint's record type, record content equals the
    target value, and the record's derived fully-qualified name equals the
    endpoint's DNS name", the fully-qualified name being the zone name for an
    empty relative name and [relative_name + "." + zone_name] otherwise. *)
Definition spec_fqdn (zone relative_name : string) : string :=
  match relative_name with
  | EmptyString => zone
  | _ => relative_name +:+ "." +:+ zone
  end.

Definition spec_matches (zone : string) (ep : Endpoint) (target : string)
    (record : NameserverRecord) : bool :=
  bool_decide (NameserverRecord.Type_ record = Endpoint.RecordType ep)
  && bool_decide (NameserverRecord.Content record = target)
  && bool_decide
       (spec_fqdn zone (NameserverRecord.Name record) = Endpoint.DNSName ep).

(** Every match of every target, targets in order, records in scan order. *)
Definition spec_located (zone : string) (records : list NameserverRecord)
    (ep : Endpoint) : list Z :=
  flat_map
    (fun target =>
       map NameserverRecord.ID
           (List.filter (spec_matches zone ep target) records))
    (Endpoint.Targets ep).

(** ** The client interface ([AbstractClientWrapper]) *)

(** The seven operations of the Go interface, as functions on the state [W]
    of the client.  [login]'s response value is discarded by both callers, so
    only its error is kept. *)
Class AbstractClientWrapper (W : Type) : Type := {
  login : W -> option error * W;
  logout : W -> option error * W;
  getRecords : string -> W -> (error + list NameserverRecord) * W;
  getZones : W -> (error + list string) * W;
  createRecord : NameserverRecordRequest -> W -> option error * W;
  updateRecord : Z -> NameserverRecordRequest -> W -> option error * W;
  deleteRecord : Z -> W -> option error * W
}.

(** ** Steps, traces and the monad of the provider *)

(** What a run does, in order: the calls on the client, and the two
    look-ups ([getZone], [getRecIDs]) whose failure [ApplyChanges] records.
    The look-ups are pure in the source; they are put on the trace so that a
    run shows which endpoints were attempted and which look-ups failed. *)
Inductive Step : Type :=
| Login
| Logout
| GetZones
| GetRecords (zone : string)
| CreateRecord (request : NameserverRecordRequest)
| UpdateRecord (recID : Z) (request : NameserverRecordRequest)
| DeleteRecord (recID : Z)
| ResolveZone (ep : Endpoint)
| LocateRecords (zone : string) (ep : Endpoint).

#[global] Instance Step_eq_dec : EqDecision Step.
Proof. solve_decision. Defined.

(** A step with the error it ended in, if any. *)
Abbreviation Event := (Step * option error)%type.

(** The client and the two locals of [ApplyChanges] that outlive a loop
    iteration. *)
Record Store (W : Type) : Type := mkStore {
  client : W;
  errs : list error;
  recordsCache : gmap string (list NameserverRecord)
}.
Arguments mkStore {W} _ _ _.
Arguments client {W} _.
Arguments errs {W} _.
Arguments recordsCache {W} _.

(** A Go function either returns or panics. *)
Inductive Res (A : Type) : Type :=
| Val (a : A)
| Panic.
Arguments Val {A} _.
Arguments Panic {A}.

(** Computations: from a store to an outcome, the store left behind and the
    steps taken. *)
Definition M (W A : Type) : Type := Store W -> Res A * Store W * list Event.

Definition ret {W A} (a : A) : M W A := fun st => (Val a, st, []).

Definition bind {W A B} (m : M W A) (f : A -> M W B) : M W B := fun st =>
  match m st with
  | (Val a, st1, t1) => let '(r, st2, t2) := f a st1 in (r, st2, t1 ++ t2)
  | (Panic, st1, t1) => (Panic, st1, t1)
  end.

Declare Scope go_scope.
Delimit Scope go_scope with go.
Notation "x <- m ;; f" := (bind m (fun x => f))
  (at level 100, m at next level, f at level 200, right associativity,
   only parsing) : go_scope.
Notation "m ;; f" := (bind m (fun _ => f))
  (at level 100, f at level 200, right associativity, only parsing)
  : go_scope.
Open Scope go_scope.

(** A run-time panic (index out of range, nil dereference). *)
Definition panic {W A} : M W A := fun st => (Panic, st, []).

(** A call on the client whose only result is an error. *)
Definition call {W} (step : Step) (op : W -> option error * W)
    : M W (option error) := fun st =>
  let '(err, w) := op (client st) in
  (Val err, mkStore w (errs st) (recordsCache st), [(step, err)]).

(** A call on the client that returns a value or an error. *)
Definition callv {W A} (step : Step) (op : W -> (error + A) * W)
    : M W (error + A) := fun st =>
  let '(r, w) := op (client st) in
  (Val r, mkStore w (errs st) (recordsCache st),
   [(step, match r with inl err => Some err | inr _ => None end)]).

(** The outcome of a pure look-up, put on the trace. *)
Definition note {W} (step : Step) (err : option error) : M W unit := fun st =>
  (Val tt, st, [(step, err)]).

(** [errs = append(errs, err)]. *)
Definition appendErr {W} (err : error) : M W unit := fun st =>
  (Val tt, mkStore (client st) (errs st ++ [err]) (recordsCache st), []).

Definition writeErrs {W} (es : list error) : M W unit := fun st =>
  (Val tt, mkStore (client st) es (recordsCache st), []).

Definition readErrs {W} : M W (list error) := fun st => (Val (errs st), st, []).

Definition readCache {W} : M W (gmap string (list NameserverRecord)) :=
  fun st => (Val (recordsCache st), st, []).

Definition writeCache {W} (c : gmap string (list NameserverRecord))
    : M W unit := fun st =>
  (Val tt, mkStore (client st) (errs st) c, []).

(** [for _, x := range l { body }]; a panic in the body leaves the loop. *)
Fixpoint forEach {W A} (l : list A) (body : A -> M W unit) : M W unit :=
  match l with
  | [] => ret tt
  | x :: l' => body x ;; forEach l' body
  end.

(** [for i, x := range l { body }], [i] counted from [start]. *)
Fixpoint forEachFrom {W A} (start : nat) (l : list A)
    (body : nat -> A -> M W unit) : M W unit :=
  match l with
  | [] => ret tt
  | x :: l' => body start x ;; forEachFrom (S start) l' body
  end.

(** [defer] of the logout: it runs when the body returns and when it panics;
    its error is logged only. *)
Definition deferLogout {W A} `{AbstractClientWrapper W} (body : M W A)
    : M W A := fun st =>
  let '(r, st1, t1) := body st in
  let '(err, w) := logout (client st1) in
  (r, mkStore w (errs st1) (recordsCache st1), t1 ++ [(Logout, err)]).

(** [if err != nil { errs = append(errs, err) }]. *)
Definition recordErr {W} (err : option error) : M W unit :=
  match err with
  | Some e => appendErr e
  | None => ret tt
  end.

(** ** Change Planner: [ApplyChanges] *)

(** [plan.Changes.HasChanges] of external-dns, the library the provider is
    written against: there are changes when [Create] or [Delete] is
    non-empty or when [UpdateNew] differs from [UpdateOld]. *)
Definition HasChanges (changes : Changes) : bool :=
  (0 <? length (Changes.Create changes))%nat
  || (0 <? length (Changes.Delete changes))%nat
  || negb (bool_decide (Changes.UpdateNew changes = Changes.UpdateOld changes)).

(** The [name] of a request: computed in the same way in the create phase
    (from [ep]) and in the update phase (from [newEp]). *)
Definition relativeName (dnsName zone : string) : string :=
  if String.eqb dnsName zone then "" else TrimSuffix dnsName ("." +:+ zone).

Section Provider.
Context {W : Type} {wrapper : AbstractClientWrapper W}.

(** Body of the loop over [changes.Delete]. *)
Definition deleteEndpoint (zones : list string) (ep : Endpoint) : M W unit :=
  let '(zone, err) := getZone zones ep in
  note (ResolveZone ep) err ;;
  match err with
  | Some e => appendErr e
  | None =>
      cache <- readCache ;;
      cached <-
        match cache !! zone with
        | Some _ => ret true
        | None =>
            r <- callv (GetRecords zone) (getRecords zone) ;;
            match r with
            | inl e => appendErr e ;; ret false          (* continue *)
            | inr recs => writeCache (<[zone := recs]> cache) ;; ret true
            end
        end ;;
      if (cached : bool) then
        cache <- readCache ;;
        match cache !! zone with
        | None => panic                 (* nil dereference in getRecIDs *)
        | Some records =>
            let '(recIDs, err) := getRecIDs zone records ep in
            note (LocateRecords zone ep) err ;;
            recordErr err ;;
            forEach recIDs (fun id =>
              err <- call (DeleteRecord id) (deleteRecord id) ;;
              recordErr err)
        end
      else ret tt
  end.

(** Body of the loop over [changes.Create]. *)
Definition createEndpoint (zones : list string) (ep : Endpoint) : M W unit :=
  let '(zone, err) := getZone zones ep in
  note (ResolveZone ep) err ;;
  match err with
  | Some e => appendErr e
  | None =>
      forEach (Endpoint.Targets ep) (fun target =>
        let name := relativeName (Endpoint.DNSName ep) zone in
        let rec :=
          NameserverRecordRequest.mk zone name (Endpoint.RecordType ep)
            target (Endpoint.RecordTTL ep) 0 in
        err <- call (CreateRecord rec) (createRecord rec) ;;
        recordErr err)
  end.

(** Body of the loop [for j := range max(...)] of the update phase.
    [recIDs[j]] and [newEp.Targets[j]] panic when [j] is out of range, and so
    does [oldEp.Targets[j]], which the delete branch evaluates for its log
    line when the deletion failed. *)
Definition alignTarget (zone name : string) (oldEp newEp : Endpoint)
    (recIDs : list Z) (j : nat) : M W unit :=
  if (length (Endpoint.Targets newEp) <=? j)%nat then
    match recIDs !! j with
    | None => panic
    | Some id =>
        err <- call (DeleteRecord id) (deleteRecord id) ;;
        match err with
        | Some e =>
            appendErr e ;;
            match Endpoint.Targets oldEp !! j with
            | None => panic
            | Some _ => ret tt
            end
        | None => ret tt
        end
    end
  else if (length (Endpoint.Targets oldEp) <=? j)%nat then
    match Endpoint.Targets newEp !! j with
    | None => panic
    | Some target =>
        let rec :=
          NameserverRecordRequest.mk zone name (Endpoint.RecordType newEp)
            target (Endpoint.RecordTTL newEp) 0 in
        err <- call (CreateRecord rec) (createRecord rec) ;;
        recordErr err
    end
  else
    match Endpoint.Targets newEp !! j with
    | None => panic
    | Some target =>
        let rec :=
          NameserverRecordRequest.mk zone name (Endpoint.RecordType newEp)
            target (Endpoint.RecordTTL oldEp) 0 in
        match recIDs !! j with
        | None => panic
        | Some id =>
            err <- call (UpdateRecord id rec) (updateRecord id rec) ;;
            recordErr err
        end
    end.

(** Body of the loop over [changes.UpdateOld]. *)
Definition updateEndpoint (zones : list string) (changes : Changes)
    (i : nat) (oldEp : Endpoint) : M W unit :=
  match Changes.UpdateNew changes !! i with
  | None => panic                       (* changes.UpdateNew[i] *)
  | Some newEp =>
      let '(zone, err) := getZone zones oldEp in
      note (ResolveZone oldEp) err ;;
      match err with
      | Some e => appendErr e
      | None =>
          cache <- readCache ;;
          cached <-
            match cache !! zone with
            | Some _ => ret true
            | None =>
                r <- callv (GetRecords zone) (getRecords zone) ;;
                match r with
                | inl e => appendErr e ;; ret false      (* continue *)
                | inr recs => writeCache (<[zone := recs]> cache) ;; ret true
                end
            end ;;
          if (cached : bool) then
            cache <- readCache ;;
            match cache !! zone with
            | None => panic             (* nil dereference in getRecIDs *)
            | Some records =>
                let '(recIDs, err) := getRecIDs zone records oldEp in
                note (LocateRecords zone oldEp) err ;;
                recordErr err ;;
                let name := relativeName (Endpoint.DNSName newEp) zone in
                forEach
                  (seq 0 (Nat.max (length (Endpoint.Targets oldEp))
                            (Nat.max (length (Endpoint.Targets newEp))
                               (length recIDs))))
                  (alignTarget zone name oldEp newEp recIDs)
            end
          else ret tt
      end
  end.

(** The three loops of [ApplyChanges]. *)
Definition deletePhase (zones : list string) (changes : Changes) : M W unit :=
  forEach (Changes.Delete changes) (deleteEndpoint zones).

Definition createPhase (zones : list string) (changes : Changes) : M W unit :=
  forEach (Changes.Create changes) (createEndpoint zones).

Definition updatePhase (zones : list string) (changes : Changes) : M W unit :=
  forEachFrom 0 (Changes.UpdateOld changes) (updateEndpoint zones changes).

Definition ApplyChanges (changes : Changes) : M W (option error) :=
  if negb (HasChanges changes) then ret None
  else
    err <- call Login login ;;
    match err with
    | Some e => ret (Some e)
    | None =>
        deferLogout (
          r <- callv GetZones getZones ;;
          match r with
          | inl e => ret (Some e)
          | inr zones =>
              writeErrs [] ;;
              writeCache ∅ ;;
              deletePhase zones changes ;;
              createPhase zones changes ;;
              writeCache ∅ ;;
              updatePhase zones changes ;;
              errs <- readErrs ;;
              if (0 <? length errs)%nat
              then ret (Some (ErrApplyChanges (length errs)))
              else ret None
          end)
    end.

(** ** State Reader: [Records] *)

(** [endpoint.NewEndpointWithTTL] belongs to external-dns; [Records] is
    taken over any such constructor. *)
Variable NewEndpointWithTTL : string -> string -> Z -> list string -> Endpoint.

(** Inner loop: one endpoint per record, appended to [endpoints]. *)
Definition Records_record (zone : string) (endpoints : list Endpoint)
    (rec : NameserverRecord) : list Endpoint :=
  let name := NameserverRecord.Name rec +:+ "." +:+ zone in
  endpoints ++
  [NewEndpointWithTTL name (NameserverRecord.Type_ rec)
     (NameserverRecord.TTL rec) [NameserverRecord.Content rec]].

(** Outer loop over the zones; a failed fetch returns at once. *)
Fixpoint Records_zones (zones : list string) (endpoints : list Endpoint)
    : M W (error + list Endpoint) :=
  match zones with
  | [] => ret (inr endpoints)
  | zone :: zones' =>
      r <- callv (GetRecords zone) (getRecords zone) ;;
      match r with
      | inl e => ret (inl (ErrZoneInfo zone e))
      | inr records =>
          Records_zones zones'
            (fold_left (Records_record zone) records endpoints)
      end
  end.

(** The debug logging of the collected endpoints has no effect on the
    result and is left out. *)
Definition Records : M W (error + list Endpoint) :=
  err <- call Login login ;;
  match err with
  | Some e => ret (inl e)
  | None =>
      deferLogout (
        r <- callv GetZones getZones ;;
        match r with
        | inl e => ret (inl e)
        | inr zones => Records_zones zones []
        end)
  end.

End Provider.

(** ** The test double: [MockClientWrapper] *)

(** [db] maps a zone to its records, a deleted record keeping its slot with
    [ID = -1]; [idToZone] maps an identifier to the zone it was created in.
    The texts of the errors leave out the formatted identifier. *)
Module MockClientWrapper.
Record t : Type := mk {
    db : gmap string (list NameserverRecord);
    idToZone : gmap Z string
}.

Definition login (w : t) : option error * t := (None, w).

Definition logout (w : t) : option error * t := (None, w).

Definition getRecords (domain : string) (w : t)
    : (error + list NameserverRecord) * t :=
  match db w !! domain with
  | None =>
      (inl (ErrClient ("unable to retrieve records for zone " +:+ domain
                       +:+ ": key not found in mock db")), w)
  | Some recs =>
      (inr (List.filter
              (fun rec => negb (NameserverRecord.ID rec =? -1)%Z) recs), w)
  end.

(** Go leaves the order of [maps.Keys] unspecified; the keys come in the
    order of the map here. *)
Definition getZones (w : t) : (error + list string) * t :=
  (inr (map fst (map_to_list (db w))), w).

Definition createRecord (r : NameserverRecordRequest) (w : t)
    : option error * t :=
  match db w !! NameserverRecordRequest.Domain r with
  | None =>
      (Some (ErrClient ("zone " +:+ NameserverRecordRequest.Domain r
                        +:+ " not found")), w)
  | Some recs =>
      let id := Z.of_nat (length recs) in
      let newRecs :=
        recs ++
        [NameserverRecord.mk id (NameserverRecordRequest.Name r)
           (NameserverRecordRequest.Type_ r)
           (NameserverRecordRequest.Content r)
           (NameserverRecordRequest.TTL r)
           (NameserverRecordRequest.Priority r)] in
      (None,
       mk (<[NameserverRecordRequest.Domain r := newRecs]> (db w))
          (<[id := NameserverRecordRequest.Domain r]> (idToZone w)))
  end.

(** Indexing the records panics in Go for a negative [recID]; the interface has
    no room for it, and no identifier handed out by the mock is negative
    ([getRecords] filters the [-1] marks), so that case is an error here. *)
Definition updateRecord (recID : Z) (r : NameserverRecordRequest) (w : t)
    : option error * t :=
  match db w !! NameserverRecordRequest.Domain r with
  | None =>
      (Some (ErrClient ("zone " +:+ NameserverRecordRequest.Domain r
                        +:+ " not found")), w)
  | Some recs =>
      if (Z.of_nat (length recs) <=? recID)%Z
      then (Some (ErrClient "record ID not found"), w)
      else if (recID <? 0)%Z
      then (Some (ErrClient "index out of range"), w)
      else
        match recs !! Z.to_nat recID with
        | None => (Some (ErrClient "index out of range"), w)
        | Some old =>
            if (NameserverRecord.ID old =? -1)%Z
            then (Some (ErrClient "record ID has been deleted"), w)
            else
              let new :=
                NameserverRecord.mk recID (NameserverRecordRequest.Name r)
                  (NameserverRecordRequest.Type_ r)
                  (NameserverRecordRequest.Content r)
                  (NameserverRecordRequest.TTL r)
                  (NameserverRecordRequest.Priority r) in
              (None,
               mk (<[NameserverRecordRequest.Domain r :=
                       <[Z.to_nat recID := new]> recs]> (db w))
                  (idToZone w))
        end
  end.

Definition deleteRecord (recID : Z) (w : t) : option error * t :=
  match idToZone w !! recID with
  | None => (Some (ErrClient "zone for record ID not found"), w)
  | Some zone =>
      match db w !! zone with
      | None => (Some (ErrClient ("zone " +:+ zone +:+ " not found")), w)
      | Some recs =>
          if (Z.of_nat (length recs) <=? recID)%Z
          then (Some (ErrClient "record ID not found"), w)
          else if (recID <? 0)%Z
          then (Some (ErrClient "index out of range"), w)
          else
            match recs !! Z.to_nat recID with
            | None => (Some (ErrClient "index out of range"), w)
            | Some old =>
                if (NameserverRecord.ID old =? -1)%Z
                then (Some (ErrClient "record ID has already been deleted"), w)
                else
                  let gone :=
                    NameserverRecord.mk (-1) (NameserverRecord.Name old)
                      (NameserverRecord.Type_ old)
                      (NameserverRecord.Content old)
                      (NameserverRecord.TTL old)
                      (NameserverRecord.Priority old) in
                  (None,
                   mk (<[zone := <[Z.to_nat recID := gone]> recs]> (db w))
                      (idToZone w))
            end
      end
  end.

(** [CreateZone] panics when the zone exists: [None]. *)
Definition CreateZone (zone : string) (w : t) : option t :=
  match db w !! zone with
  | Some _ => None
  | None => Some (mk (<[zone := []]> (db w)) (idToZone w))
  end.

Definition empty : t := mk ∅ ∅.
End MockClientWrapper.

#[global] Instance MockClientWrapper_client
  : AbstractClientWrapper MockClientWrapper.t := {
  login := MockClientWrapper.login;
  logout := MockClientWrapper.logout;
  getRecords := MockClientWrapper.getRecords;
  getZones := MockClientWrapper.getZones;
  createRecord := MockClientWrapper.createRecord;
  updateRecord := MockClientWrapper.updateRecord;
  deleteRecord := MockClientWrapper.deleteRecord
}.

(** ** A client with fixed answers

    The registrar behind [ClientWrapper] can fail any call.  This client
    answers every call of a kind in the same way, which is enough to put a
    failed login or a failed record fetch in front of the provider. *)
Module FixedClient.
Record t : Type := mk {
    loginAnswer : option error;
    zonesAnswer : error + list string;
    recordsAnswer : string -> error + list NameserverRecord;
    changeAnswer : option error
}.
End FixedClient.

#[global] Instance FixedClient_client : AbstractClientWrapper FixedClient.t := {
  login w := (FixedClient.loginAnswer w, w);
  logout w := (None, w);
  getRecords zone w := (FixedClient.recordsAnswer w zone, w);
  getZones w := (FixedClient.zonesAnswer w, w);
  createRecord _ w := (FixedClient.changeAnswer w, w);
  updateRecord _ _ w := (FixedClient.changeAnswer w, w);
  deleteRecord _ w := (FixedClient.changeAnswer w, w)
}.

(** The store a call of the provider starts from. *)
Definition initial {W} (w : W) : Store W := mkStore w [] ∅.

(** ** Reading a run *)

Definition outcome {W A} (x : Res A * Store W * list Event) : Res A := x.1.1.
Definition final {W A} (x : Res A * Store W * list Event) : Store W := x.1.2.
Definition steps {W A} (x : Res A * Store W * list Event) : list Event := x.2.

(** The errors of the failed steps of a trace, in order. *)
Definition failures (t : list Event) : list error := omap snd t.

(** The endpoints whose zone was looked up, in order. *)
Definition resolved (t : list Event) : list Endpoint :=
  omap (fun ev : Event =>
          match ev.1 with ResolveZone ep => Some ep | _ => None end) t.

Definition is_mutation (s : Step) : bool :=
  match s with
  | CreateRecord _ | UpdateRecord _ _ | DeleteRecord _ => true
  | _ => false
  end.

(** The calls that change records, in order. *)
Definition mutations (t : list Event) : list Step :=
  List.filter is_mutation (map fst t).

Definition is_fetch (zone : string) (ev : Event) : bool :=
  bool_decide (ev.1 = GetRecords zone).

(** How often the records of [zone] were asked for. *)
Definition fetches (zone : string) (t : list Event) : nat :=
  length (List.filter (is_fetch zone) t).


(** The request the create phase sends for a target. *)
Definition createRequest (zone : string) (ep : Endpoint) (target : string)
    : NameserverRecordRequest :=
  NameserverRecordRequest.mk zone (relativeName (Endpoint.DNSName ep) zone)
    (Endpoint.RecordType ep) target (Endpoint.RecordTTL ep) 0.

(** The zones whose records were obtained. *)
Fixpoint fetched (t : list Event) : gset string :=
  match t with
  | [] => ∅
  | (GetRecords zone, None) :: t' => {[zone]} ∪ fetched t'
  | _ :: t' => fetched t'
  end.

(** A trace fetches lazily from the zones [known] when records are asked
    for only for a zone not obtained yet, and looked through only for a zone
    that has been obtained. *)
Fixpoint lazy_fetches (known : gset string) (t : list Event) : Prop :=
  match t with
  | [] => True
  | (GetRecords zone, None) :: t' =>
      (zone ∉ known) /\ lazy_fetches ({[zone]} ∪ known) t'
  | (GetRecords zone, Some _) :: t' =>
      (zone ∉ known) /\ lazy_fetches known t'
  | (LocateRecords zone _, _) :: t' =>
      zone ∈ known /\ lazy_fetches known t'
  | _ :: t' => lazy_fetches known t'
  end.

(** Steps of a phase: the delete phase takes no create or update step, the
    create phase only zone look-ups and creations, the update phase no
    session or zone-listing step. *)
Definition delete_step (s : Step) : bool :=
  match s with
  | ResolveZone _ | GetRecords _ | LocateRecords _ _ | DeleteRecord _ => true
  | _ => false
  end.

Definition create_step (s : Step) : bool :=
  match s with
  | ResolveZone _ | CreateRecord _ => true
  | _ => false
  end.

Definition update_step (s : Step) : bool :=
  match s with
  | Login | Logout | GetZones => false
  | _ => true
  end.

(** *** The alignment of an update pair in the words of the specification *)

(** Position [j]: past the new targets, delete the record at [recIDs[j]];
    past the old targets, create a record with [newEp]'s type, TTL, relative
    name and target [j]; otherwise update the record at [recIDs[j]] with
    [newEp]'s type, relative name and target [j] and [oldEp]'s TTL.  There is
    no such step when [recIDs[j]] does not exist. *)
Definition spec_align (zone : string) (oldEp newEp : Endpoint)
    (recIDs : list Z) (j : nat) : option Step :=
  let request (ttl : Z) (target : string) :=
    NameserverRecordRequest.mk zone
      (relativeName (Endpoint.DNSName newEp) zone)
      (Endpoint.RecordType newEp) target ttl 0 in
  if decide (length (Endpoint.Targets newEp) <= j) then
    DeleteRecord <$> recIDs !! j
  else if decide (length (Endpoint.Targets oldEp) <= j) then
    (fun target => CreateRecord (request (Endpoint.RecordTTL newEp) target))
      <$> Endpoint.Targets newEp !! j
  else
    match Endpoint.Targets newEp !! j, recIDs !! j with
    | Some target, Some id =>
        Some (UpdateRecord id (request (Endpoint.RecordTTL oldEp) target))
    | _, _ => None
    end.

(** The positions of the loop: [0 .. max(len old, len new, len recIDs) - 1]. *)
Definition spec_positions (oldEp newEp : Endpoint) (recIDs : list Z)
    : list nat :=
  seq 0 (Nat.max (length (Endpoint.Targets oldEp))
           (Nat.max (length (Endpoint.Targets newEp)) (length recIDs))).

(** *** The relative name in the words of the specification *)


(** Traces of record changes only. *)
Definition changes_only (t : list Event) : Prop :=
  Forall (fun ev : Event => is_mutation ev.1 = true) t.

(** What every piece of [ApplyChanges] maintains between the store it
    starts from, the store it leaves and the steps it takes: each failed
    step is appended to [errs], records are fetched lazily into the cache,
    and only steps of the phase are taken. *)
Record steady {W} (allowed : Step -> bool) (st st' : Store W)
    (t : list Event) : Prop := mk_steady {
  steady_errs : errs st' = errs st ++ failures t;
  steady_lazy : lazy_fetches (dom (recordsCache st)) t;
  steady_dom : dom (recordsCache st') = dom (recordsCache st) ∪ fetched t;
  steady_steps : Forall (fun ev : Event => allowed ev.1 = true) t
}.

(** A computation run from [st] ends in an outcome, a store and steps that
    satisfy [Q]. *)
Definition wp {W A} (m : M W A)
    (Q : Res A -> Store W -> list Event -> Prop) (st : Store W) : Prop :=
  Q (outcome (m st)) (final (m st)) (steps (m st)).

(** The records a backend holds for the requests that the create phase
    sends for [ep], stored under the identifiers [ids]. *)
Definition created_records (zone : string) (ep : Endpoint) (ids : list Z)
    : list NameserverRecord :=
  zip_with
    (fun id target =>
       NameserverRecord.mk id (relativeName (Endpoint.DNSName ep) zone)
         (Endpoint.RecordType ep) target (Endpoint.RecordTTL ep) 0)
    ids (Endpoint.Targets ep).

(** ** States of the mock *)

(** The records the mock lists for a zone ([getRecords], without the
    state). *)
Definition mock_listing (zone : string) (w : MockClientWrapper.t)
    : error + list NameserverRecord :=
  (MockClientWrapper.getRecords zone w).1.

(** A record is not marked as deleted. *)
Definition undeleted (rec : NameserverRecord) : bool :=
  negb (NameserverRecord.ID rec =? -1)%Z.

(** The shape the operations of the mock keep: the record in slot [i] of a
    zone has identifier [i] or the deletion mark, and an identifier known to
    [idToZone] belongs to a zone of [db] and is a slot of that zone. *)
Definition mock_wf (w : MockClientWrapper.t) : Prop :=
  (forall zone recs i rec,
     MockClientWrapper.db w !! zone = Some recs -> recs !! i = Some rec ->
     NameserverRecord.ID rec = Z.of_nat i
     \/ NameserverRecord.ID rec = (-1)%Z)
  /\ (forall id zone,
        MockClientWrapper.idToZone w !! id = Some zone ->
        exists recs,
          MockClientWrapper.db w !! zone = Some recs
          /\ (0 <= id < Z.of_nat (length recs))%Z).

(** The states the mock gets into from the empty one. *)
Inductive mock_reachable : MockClientWrapper.t -> Prop :=
| reach_empty : mock_reachable MockClientWrapper.empty
| reach_CreateZone zone w w' :
    mock_reachable w -> MockClientWrapper.CreateZone zone w = Some w' ->
    mock_reachable w'
| reach_createRecord r w :
    mock_reachable w -> mock_reachable (MockClientWrapper.createRecord r w).2
| reach_updateRecord recID r w :
    mock_reachable w ->
    mock_reachable (MockClientWrapper.updateRecord recID r w).2
| reach_deleteRecord recID w :
    mock_reachable w -> mock_reachable (MockClientWrapper.deleteRecord recID w).2.

(** ** Worked inputs *)

(** The mock after [CreateZone("example.com")] and the creation of an A
    record for [a] (identifier 0) and for [b] (identifier 1). *)
Definition example_mock : MockClientWrapper.t :=
  let w0 :=
    default MockClientWrapper.empty
      (MockClientWrapper.CreateZone "example.com" MockClientWrapper.empty) in
  let w1 :=
    (MockClientWrapper.createRecord
       (NameserverRecordRequest.mk "example.com" "a" "A" "1.1.1.1" 300 0)
       w0).2 in
  (MockClientWrapper.createRecord
     (NameserverRecordRequest.mk "example.com" "b" "A" "2.2.2.2" 300 0)
     w1).2.

(** [b] and the unknown [z] are to go, [c] is new, [a] changes its first
    target and gains a second one. *)
Definition example_old : Endpoint :=
  Endpoint.mk "a.example.com" "A" 300 ["1.1.1.1"].
Definition example_new : Endpoint :=
  Endpoint.mk "a.example.com" "A" 600 ["1.1.1.9"; "1.1.1.8"].
Definition example_changes : Changes :=
  Changes.mk
    [Endpoint.mk "c.example.com" "A" 300 ["3.3.3.3"]]
    [example_old]
    [example_new]
    [Endpoint.mk "b.example.com" "A" 300 ["2.2.2.2"];
     Endpoint.mk "z.example.com" "A" 300 ["9.9.9.9"]].

(** The mock with the zone and a single record at its apex. *)
Definition apex_mock : MockClientWrapper.t :=
  let w0 :=
    default MockClientWrapper.empty
      (MockClientWrapper.CreateZone "example.com" MockClientWrapper.empty) in
  (MockClientWrapper.createRecord
     (NameserverRecordRequest.mk "example.com" "" "A" "1.2.3.4" 300 0)
     w0).2.

(** The mock with the zone and no record. *)
Definition bare_mock : MockClientWrapper.t :=
  default MockClientWrapper.empty
    (MockClientWrapper.CreateZone "example.com" MockClientWrapper.empty).

(** An update of a name that has no record in the zone, its target list
    becoming empty. *)
Definition unlocated_changes : Changes :=
  Changes.mk []
    [Endpoint.mk "a.example.com" "A" 300 ["1.1.1.1"]]
    [Endpoint.mk "a.example.com" "A" 300 []]
    [].

(** A registrar that knows the zone and fails every record fetch. *)
Definition no_records_client : FixedClient.t :=
  FixedClient.mk None (inr ["example.com"])
    (fun zone => inl (ErrClient ("unable to retrieve records for zone " +:+ zone)))
    None.


(** The records the mock returns for the zone of [example_mock]. *)
Definition example_records : list NameserverRecord :=
  [NameserverRecord.mk 0 "a" "A" "1.1.1.1" 300 0;
   NameserverRecord.mk 1 "b" "A" "2.2.2.2" 300 0].

(** The update pair of [example_changes], run on its own. *)
Definition example_update_run
    : Res unit * Store MockClientWrapper.t * list Event :=
  updateEndpoint ["example.com"] example_changes 0 example_old
    (initial example_mock).


(** An endpoint with two targets, and a snapshot that holds a record of the
    first target twice (with different TTLs) and none of the second. *)
Definition duplicate_endpoint : Endpoint :=
  Endpoint.mk "a.example.com" "A" 300 ["1.1.1.1"; "2.2.2.2"].
Definition duplicate_records : list NameserverRecord :=
  [NameserverRecord.mk 7 "a" "A" "1.1.1.1" 300 0;
   NameserverRecord.mk 8 "a" "A" "1.1.1.1" 600 0].

Definition www_endpoint : Endpoint :=
  Endpoint.mk "www.example.com" "A" 300 ["1.2.3.4"; "5.6.7.8"].

(** Two endpoints of one zone to delete. *)
Definition two_deletes : Changes :=
  Changes.mk [] [] []
    [Endpoint.mk "a.example.com" "A" 300 ["1.1.1.1"];
     Endpoint.mk "b.example.com" "A" 300 ["2.2.2.2"]].

(** The endpoint of the record [b] of [example_mock]. *)
Definition b_endpoint : Endpoint :=
  Endpoint.mk "b.example.com" "A" 300 ["2.2.2.2"].

(** An update whose new endpoint is missing. *)
Definition short_update_changes : Changes :=
  Changes.mk [] [example_old] [] [].


(** The mock with two zones and no record, a request for each zone, and
    the mock after both creations and after the deletion of identifier 0. *)
Definition two_zone_mock : MockClientWrapper.t :=
  default MockClientWrapper.empty
    (MockClientWrapper.CreateZone "example.org" bare_mock).
Definition first_request : NameserverRecordRequest :=
  NameserverRecordRequest.mk "example.com" "a" "A" "1.1.1.1" 300 0.
Definition second_request : NameserverRecordRequest :=
  NameserverRecordRequest.mk "example.org" "b" "A" "2.2.2.2" 300 0.
Definition two_zone_created : MockClientWrapper.t :=
  (MockClientWrapper.createRecord second_request
     (MockClientWrapper.createRecord first_request two_zone_mock).2).2.
Definition two_zone_deleted : MockClientWrapper.t :=
  (MockClientWrapper.deleteRecord 0 two_zone_created).2.

(** The mock with the zone and the record [b] only. *)
Definition b_mock : MockClientWrapper.t :=
  (MockClientWrapper.createRecord
     (NameserverRecordRequest.mk "example.com" "b" "A" "2.2.2.2" 300 0)
     bare_mock).2.

(** * Properties *)

(** ** Strings *)

Section Strings.

Lemma string_length_app (s1 s2 : string) :
  String.length (s1 +:+ s2) = String.length s1 + String.length s2.
Proof. induction s1 as [|c s1 IH]; simpl; [reflexivity | now rewrite IH]. Qed.

Lemma substring_whole (s : string) : substring 0 (String.length s) s = s.
Proof. induction s as [|c s IH]; simpl; [reflexivity | now rewrite IH]. Qed.

Lemma substring_past_prefix (p z : string) (m : nat) :
  substring (String.length p) m (p +:+ z) = substring 0 m z.
Proof. induction p as [|c p IH]; simpl; [reflexivity | apply IH]. Qed.

Lemma substring_prefix (p z : string) :
  substring 0 (String.length p) (p +:+ z) = p.
Proof.
  induction p as [|c p IH]; simpl; [now destruct z | now rewrite IH].
Qed.

Lemma substring_split (s : string) (n : nat) :
  n <= String.length s ->
  substring 0 n s +:+ substring n (String.length s - n) s = s.
Proof.
  revert n. induction s as [|c s IH]; intros [|n] Hn; simpl in *.
  - reflexivity.
  - lia.
  - now rewrite substring_whole.
  - change (String c (substring 0 n s
                         +:+ substring n (String.length s - n) s)
            = String c s).
    f_equal. apply IH. lia.
Qed.

Lemma HasSuffix_true (s z : string) : HasSuffix s z = true <-> is_suffix z s.
Proof.
  unfold HasSuffix, is_suffix. rewrite andb_true_iff, Nat.leb_le, String.eqb_eq.
  split.
  - intros [Hlen Hsub].
    exists (substring 0 (String.length s - String.length z) s).
    etransitivity;
      [symmetry;
       apply (substring_split s (String.length s - String.length z)); lia |].
    f_equal.
    replace (String.length s - (String.length s - String.length z))
      with (String.length z) by lia.
    exact Hsub.
  - intros [p ->]. rewrite string_length_app. split; [lia |].
    replace (String.length p + String.length z - String.length z)
      with (String.length p) by lia.
    rewrite substring_past_prefix. apply substring_whole.
Qed.

Lemma HasSuffix_false (s z : string) :
  HasSuffix s z = false <-> ~ is_suffix z s.
Proof.
  rewrite <- HasSuffix_true. destruct (HasSuffix s z); split; congruence.
Qed.

Lemma TrimSuffix_app (p z : string) : TrimSuffix (p +:+ z) z = p.
Proof.
  unfold TrimSuffix.
  assert (HasSuffix (p +:+ z) z = true) as -> by (apply HasSuffix_true; now exists p).
  rewrite string_length_app.
  replace (String.length p + String.length z - String.length z)
    with (String.length p) by lia.
  apply substring_prefix.
Qed.


Lemma length_zero (s : string) : String.length s = 0 -> s = "".
Proof. destruct s; simpl; [reflexivity | discriminate]. Qed.

End Strings.

(** ** Zone Resolver *)

Lemma getZone_snoc (zones : list string) (zone : string) (ep : Endpoint) :
  getZone (zones ++ [zone]) ep = getZone_step ep (getZone zones ep) zone.
Proof. unfold getZone. now rewrite fold_left_app. Qed.

(** C2 fails for an empty zone name: it is a suffix of every name, and
    [getZone] still reports that no zone matches. *)
Lemma getZone_empty_zone_not_matched :
  "" ∈ [""] /\ is_suffix "" (Endpoint.DNSName www_endpoint)
  /\ getZone [""] www_endpoint = ("", Some (ErrNoMatchingZone www_endpoint)).
Proof.
  split; [apply list_elem_of_here |]. split; [| reflexivity].
  exists "www.example.com". reflexivity.
Qed.

(** C2, amended: [getZone] returns the longest zone name that is a suffix of
    the endpoint's DNS name, empty zone names never being selected, and it
    fails exactly when no non-empty zone name is a suffix. *)
Theorem getZone_longest_suffix (zones : list string) (ep : Endpoint) :
  match getZone zones ep with
  | (zone, None) =>
      zone ∈ zones /\ zone <> "" /\ is_suffix zone (Endpoint.DNSName ep)
      /\ forall z, z ∈ zones -> is_suffix z (Endpoint.DNSName ep) ->
           String.length z <= String.length zone
  | (zone, Some e) =>
      zone = "" /\ e = ErrNoMatchingZone ep
      /\ forall z, z ∈ zones -> is_suffix z (Endpoint.DNSName ep) -> z = ""
  end.
Proof.
  induction zones as [|zone zones IH] using rev_ind.
  - simpl. split; [reflexivity |]. split; [reflexivity |].
    intros z Hz. inversion Hz.
  - rewrite getZone_snoc.
    destruct (getZone zones ep) as [m err]. unfold getZone_step. simpl fst.
    destruct (HasSuffix (Endpoint.DNSName ep) zone) eqn:Hsuf; simpl.
    + destruct (String.length m <? String.length zone)%nat eqn:Hlt.
      * apply Nat.ltb_lt in Hlt. apply HasSuffix_true in Hsuf.
        split; [set_solver |].
        split; [intros ->; simpl in Hlt; lia |].
        split; [assumption |].
        intros z Hz Hzs. apply elem_of_app in Hz as [Hz | Hz].
        -- destruct err as [e|].
           ++ destruct IH as (_ & _ & IH). rewrite (IH z Hz Hzs). simpl. lia.
           ++ destruct IH as (_ & _ & _ & IH). specialize (IH z Hz Hzs). lia.
        -- apply list_elem_of_singleton in Hz as ->. lia.
      * apply Nat.ltb_ge in Hlt. destruct err as [e|].
        -- destruct IH as (-> & -> & IH). split; [reflexivity |].
           split; [reflexivity |].
           intros z Hz Hzs. apply elem_of_app in Hz as [Hz | Hz]; [now apply IH |].
           apply list_elem_of_singleton in Hz as ->.
           simpl in Hlt. apply length_zero. lia.
        -- destruct IH as (Hin & Hne & Hs & IH).
           split; [set_solver |]. split; [assumption |]. split; [assumption |].
           intros z Hz Hzs. apply elem_of_app in Hz as [Hz | Hz]; [now apply IH |].
           apply list_elem_of_singleton in Hz as ->. lia.
    + apply HasSuffix_false in Hsuf. destruct err as [e|].
      * destruct IH as (-> & -> & IH). split; [reflexivity |].
        split; [reflexivity |].
        intros z Hz Hzs. apply elem_of_app in Hz as [Hz | Hz]; [now apply IH |].
        apply list_elem_of_singleton in Hz as ->. contradiction.
      * destruct IH as (Hin & Hne & Hs & IH).
        split; [set_solver |]. split; [assumption |]. split; [assumption |].
        intros z Hz Hzs. apply elem_of_app in Hz as [Hz | Hz]; [now apply IH |].
        apply list_elem_of_singleton in Hz as ->. contradiction.
Qed.

(** ** Record Locator *)

Lemma targetDNSName_spec (zone : string) (record : NameserverRecord) :
  targetDNSName zone record = spec_fqdn zone (NameserverRecord.Name record).
Proof.
  unfold targetDNSName, spec_fqdn.
  destruct (NameserverRecord.Name record); reflexivity.
Qed.

Lemma eqb_bool_decide (a b : string) : String.eqb a b = bool_decide (b = a).
Proof.
  destruct (String.eqb_spec a b) as [-> | Hne].
  - now rewrite bool_decide_eq_true_2.
  - rewrite bool_decide_eq_false_2; [reflexivity | congruence].
Qed.

Lemma getRecIDs_record_spec zone ep target recIDs record :
  getRecIDs_record zone ep target recIDs record =
  recIDs ++ (if spec_matches zone ep target record
             then [NameserverRecord.ID record] else []).
Proof.
  unfold getRecIDs_record, spec_matches.
  rewrite targetDNSName_spec, !eqb_bool_decide.
  rewrite (bool_decide_ext (Endpoint.DNSName ep = _)
             (spec_fqdn zone (NameserverRecord.Name record) = Endpoint.DNSName ep))
    by (split; congruence).
  destruct (_ && _ && _); [reflexivity | now rewrite app_nil_r].
Qed.

Lemma getRecIDs_target_spec zone records ep recIDs target :
  getRecIDs_target zone records ep recIDs target =
  recIDs ++ map NameserverRecord.ID
              (List.filter (spec_matches zone ep target) records).
Proof.
  unfold getRecIDs_target. revert recIDs.
  induction records as [|record records IH]; intros recIDs; simpl.
  - now rewrite app_nil_r.
  - rewrite IH, getRecIDs_record_spec.
    destruct (spec_matches zone ep target record); simpl.
    + now rewrite <- app_assoc.
    + now rewrite app_nil_r.
Qed.

Lemma getRecIDs_loop_spec zone records ep targets recIDs :
  fold_left (getRecIDs_target zone records ep) targets recIDs =
  recIDs ++ flat_map
              (fun target =>
                 map NameserverRecord.ID
                   (List.filter (spec_matches zone ep target) records))
              targets.
Proof.
  revert recIDs. induction targets as [|target targets IH]; intros recIDs; simpl.
  - now rewrite app_nil_r.
  - now rewrite IH, getRecIDs_target_spec, <- app_assoc.
Qed.

(** C3: [getRecIDs] collects, target by target and record by record, the
    identifier of every record of the snapshot with the endpoint's type, the
    target as content and the endpoint's DNS name as fully-qualified name;
    it returns them exactly when there are as many as targets, and an
    "unresolved targets" error with no identifier otherwise. *)
Theorem getRecIDs_collects_matches (zone : string)
    (records : list NameserverRecord) (ep : Endpoint) :
  getRecIDs zone records ep =
  if decide (length (spec_located zone records ep)
             = length (Endpoint.Targets ep))
  then (spec_located zone records ep, None)
  else ([], Some ErrUnmappedTargets).
Proof.
  unfold getRecIDs. rewrite getRecIDs_loop_spec. simpl.
  fold (spec_located zone records ep).
  destruct (decide _) as [Heq | Hne].
  - apply Nat.eqb_eq in Heq. now rewrite Heq.
  - apply Nat.eqb_neq in Hne. now rewrite Hne.
Qed.

(** C4 (defect): with a snapshot that holds the record of the first target
    twice and no record of the second target, the count of matches equals
    the count of targets and [getRecIDs] succeeds. *)
Theorem getRecIDs_duplicate_hides_missing_target :
  "2.2.2.2" ∈ Endpoint.Targets duplicate_endpoint
  /\ List.filter (spec_matches "example.com" duplicate_endpoint "2.2.2.2")
       duplicate_records = []
  /\ getRecIDs "example.com" duplicate_records duplicate_endpoint
     = ([7%Z; 8%Z], None).
Proof.
  split; [unfold duplicate_endpoint; simpl; set_solver |]. split; reflexivity.
Qed.

(** ** Runs of the provider *)

Section Runs.
Context {W : Type} {wrapper : AbstractClientWrapper W}.

Lemma failures_app (t1 t2 : list Event) :
  failures (t1 ++ t2) = failures t1 ++ failures t2.
Proof. apply omap_app. Qed.

Lemma resolved_app (t1 t2 : list Event) :
  resolved (t1 ++ t2) = resolved t1 ++ resolved t2.
Proof. apply omap_app. Qed.

Lemma mutations_app (t1 t2 : list Event) :
  mutations (t1 ++ t2) = mutations t1 ++ mutations t2.
Proof. unfold mutations. now rewrite map_app, List.filter_app. Qed.

Lemma fetches_app (zone : string) (t1 t2 : list Event) :
  fetches zone (t1 ++ t2) = fetches zone t1 + fetches zone t2.
Proof. unfold fetches. now rewrite List.filter_app, length_app. Qed.

Lemma fetched_app (t1 t2 : list Event) :
  fetched (t1 ++ t2) = fetched t1 ∪ fetched t2.
Proof.
  induction t1 as [|[s o] t1 IH]; simpl.
  - set_solver.
  - destruct s, o; rewrite ?IH; set_solver.
Qed.

Lemma lazy_fetches_app (known : gset string) (t1 t2 : list Event) :
  lazy_fetches known (t1 ++ t2) <->
  lazy_fetches known t1 /\ lazy_fetches (known ∪ fetched t1) t2.
Proof.
  revert known. induction t1 as [|[s o] t1 IH]; intros known; simpl.
  - replace (known ∪ ∅) with known by set_solver. tauto.
  - destruct s, o; rewrite ?IH;
      try replace (known ∪ ({[zone]} ∪ fetched t1))
            with ({[zone]} ∪ known ∪ fetched t1) by set_solver;
      tauto.
Qed.

Lemma steady_refl allowed (st : Store W) : steady allowed st st [].
Proof.
  constructor; simpl; [now rewrite app_nil_r | exact I | set_solver | constructor].
Qed.

Lemma steady_trans allowed (st st1 st2 : Store W) t1 t2 :
  steady allowed st st1 t1 -> steady allowed st1 st2 t2 ->
  steady allowed st st2 (t1 ++ t2).
Proof.
  intros [He1 Hl1 Hd1 Hs1] [He2 Hl2 Hd2 Hs2]. constructor.
  - now rewrite He2, He1, failures_app, <- app_assoc.
  - apply lazy_fetches_app. split; [assumption |]. now rewrite <- Hd1.
  - rewrite Hd2, Hd1, fetched_app. set_solver.
  - now apply Forall_app.
Qed.

(** *** Running a computation up to a postcondition *)

Lemma wp_conseq {A} (m : M W A)
    (Q Q' : Res A -> Store W -> list Event -> Prop) (st : Store W) :
  wp m Q st -> (forall r st' t, Q r st' t -> Q' r st' t) -> wp m Q' st.
Proof. unfold wp. auto. Qed.

Lemma wp_ret {A} (a : A) Q (st : Store W) : Q (Val a) st [] -> wp (ret a) Q st.
Proof. exact id. Qed.

Lemma wp_panic {A} (Q : Res A -> Store W -> list Event -> Prop) (st : Store W) :
  Q Panic st [] -> wp panic Q st.
Proof. exact id. Qed.

Lemma wp_bind {A B} (m : M W A) (f : A -> M W B) Q (st : Store W) :
  wp m (fun r st1 t1 =>
          match r with
          | Val a => wp (f a) (fun r2 st2 t2 => Q r2 st2 (t1 ++ t2)) st1
          | Panic => Q Panic st1 t1
          end) st ->
  wp (bind m f) Q st.
Proof.
  unfold wp, bind, outcome, final, steps.
  destruct (m st) as [[[a|] st1] t1]; simpl; [| exact id].
  destruct (f a st1) as [[r st2] t2]; simpl. exact id.
Qed.

Lemma wp_note step err Q (st : Store W) :
  Q (Val tt) st [(step, err)] -> wp (note step err) Q st.
Proof. exact id. Qed.

Lemma wp_appendErr e Q (st : Store W) :
  Q (Val tt) (mkStore (client st) (errs st ++ [e]) (recordsCache st)) [] ->
  wp (appendErr e) Q st.
Proof. exact id. Qed.

Lemma wp_recordErr err Q (st : Store W) :
  Q (Val tt)
    (mkStore (client st) (errs st ++ option_list err) (recordsCache st)) [] ->
  wp (recordErr err) Q st.
Proof.
  destruct err as [e|]; simpl; [exact id |].
  rewrite app_nil_r. destruct st. exact id.
Qed.

Lemma wp_deferLogout {A} (body : M W A) Q (st : Store W) :
  wp body
     (fun r st1 t1 =>
        forall err w, logout (client st1) = (err, w) ->
          Q r (mkStore w (errs st1) (recordsCache st1))
            (t1 ++ [(Logout, err)])) st ->
  wp (deferLogout body) Q st.
Proof.
  unfold wp, deferLogout, outcome, final, steps.
  destruct (body st) as [[r st1] t1]; simpl.
  destruct (logout (client st1)) as [err w]; simpl. intros HQ. now apply HQ.
Qed.

Lemma wp_forEach {A} (l : list A) (body : A -> M W unit)
    (I : list A -> Store W -> list Event -> Prop)
    (J : Store W -> list Event -> Prop) (st : Store W) :
  I [] st [] ->
  (forall done x rest st1 t1, l = done ++ x :: rest -> I done st1 t1 ->
     wp (body x)
        (fun r st2 t2 =>
           match r with
           | Val _ => I (done ++ [x]) st2 (t1 ++ t2)
           | Panic => J st2 (t1 ++ t2)
           end) st1) ->
  wp (forEach l body)
     (fun r st' t => match r with Val _ => I l st' t | Panic => J st' t end) st.
Proof.
  intros HI Hbody.
  enough (forall todo done st1 t1, l = done ++ todo -> I done st1 t1 ->
            wp (forEach todo body)
               (fun r st' t =>
                  match r with
                  | Val _ => I l st' (t1 ++ t)
                  | Panic => J st' (t1 ++ t)
                  end) st1) as Hgen by exact (Hgen l [] st [] eq_refl HI).
  induction todo as [|x todo IH]; intros done st1 t1 Hl Hdone; simpl.
  - apply wp_ret. rewrite !app_nil_r in *. now subst.
  - apply wp_bind. eapply wp_conseq; [apply (Hbody _ x _ _ _ Hl Hdone) |].
    intros [[]|] st2 t2 HQ; simpl; [| exact HQ].
    assert (l = (done ++ [x]) ++ todo) as Hl' by now rewrite <- app_assoc.
    eapply wp_conseq; [apply (IH (done ++ [x]) st2 (t1 ++ t2) Hl' HQ) |].
    intros [[]|] st3 t3; simpl; rewrite <- !app_assoc; simpl; exact id.
Qed.

Lemma forEachFrom_forEach {A} (i : nat) (l : list A)
    (body : nat -> A -> M W unit) :
  forEachFrom i l body =
  forEach (zip (seq i (length l)) l) (fun p => body p.1 p.2).
Proof.
  revert i. induction l as [|x l IH]; intros i; simpl; [reflexivity |].
  now rewrite IH.
Qed.

Lemma wp_readErrs Q (st : Store W) : Q (Val (errs st)) st [] -> wp readErrs Q st.
Proof. exact id. Qed.

Lemma wp_writeErrs es Q (st : Store W) :
  Q (Val tt) (mkStore (client st) es (recordsCache st)) [] ->
  wp (writeErrs es) Q st.
Proof. exact id. Qed.

Lemma wp_readCache Q (st : Store W) : Q (Val (recordsCache st)) st [] -> wp readCache Q st.
Proof. exact id. Qed.

Lemma wp_writeCache c Q (st : Store W) :
  Q (Val tt) (mkStore (client st) (errs st) c) [] -> wp (writeCache c) Q st.
Proof. exact id. Qed.

Lemma wp_call step (op : W -> option error * W) Q (st : Store W) :
  (forall err w, op (client st) = (err, w) ->
     Q (Val err) (mkStore w (errs st) (recordsCache st)) [(step, err)]) ->
  wp (call step op) Q st.
Proof.
  intros HQ. unfold wp, call, outcome, final, steps.
  destruct (op (client st)) as [err w] eqn:Hop. simpl. now apply HQ.
Qed.

Lemma wp_callv {A} step (op : W -> (error + A) * W) Q (st : Store W) :
  (forall r w, op (client st) = (r, w) ->
     Q (Val r) (mkStore w (errs st) (recordsCache st))
       [(step, match r with inl e => Some e | inr _ => None end)]) ->
  wp (callv step op) Q st.
Proof.
  intros HQ. unfold wp, callv, outcome, final, steps.
  destruct (op (client st)) as [r w] eqn:Hop. simpl. now apply HQ.
Qed.

End Runs.

Lemma changes_only_fetched t : changes_only t -> fetched t = ∅.
Proof.
  induction 1 as [|[s o] t Hs _ IH]; simpl; [reflexivity |].
  destruct s, o; try discriminate; exact IH.
Qed.

Lemma changes_only_lazy known t : changes_only t -> lazy_fetches known t.
Proof.
  induction 1 as [|[s o] t Hs _ IH]; simpl; [exact I |].
  destruct s, o; try discriminate; exact IH.
Qed.

Lemma changes_only_resolved t : changes_only t -> resolved t = [].
Proof.
  induction 1 as [|[s o] t Hs _ IH]; simpl; [reflexivity |].
  destruct s; try discriminate; exact IH.
Qed.

Lemma changes_only_mutations t : changes_only t -> mutations t = map fst t.
Proof.
  unfold mutations.
  induction 1 as [|[s o] t Hs _ IH]; simpl in *; [reflexivity |].
  now rewrite Hs, IH.
Qed.

Lemma changes_only_fetches zone t : changes_only t -> fetches zone t = 0.
Proof.
  unfold fetches.
  induction 1 as [|[s o] t Hs _ IH]; simpl in *; [reflexivity |].
  unfold is_fetch at 1. simpl.
  rewrite bool_decide_eq_false_2; [exact IH |].
  intros ->. discriminate.
Qed.

Lemma steps_of_map (allowed : Step -> bool) (t : list Event) {A}
    (l : list A) (step : A -> Step) :
  (forall x, allowed (step x) = true) ->
  map fst t = map step l -> Forall (fun ev : Event => allowed ev.1 = true) t.
Proof.
  intros Ha. revert l. induction t as [|[s o] t IH]; intros [|x l] Heq;
    try discriminate; constructor.
  - simpl in *. injection Heq as -> _. apply Ha.
  - simpl in Heq. injection Heq as _ Heq. now apply (IH l).
Qed.

Lemma changes_only_map (t : list Event) {A} (l : list A) (step : A -> Step) :
  (forall x, is_mutation (step x) = true) ->
  map fst t = map step l -> changes_only t.
Proof. apply steps_of_map. Qed.

(** One step of symbolic execution. *)
Ltac wp_step :=
  lazymatch goal with
  | |- wp (bind _ _) _ _ => apply wp_bind
  | |- wp (ret _) _ _ => apply wp_ret
  | |- wp panic _ _ => apply wp_panic
  | |- wp (note _ _) _ _ => apply wp_note
  | |- wp (appendErr _) _ _ => apply wp_appendErr
  | |- wp (recordErr _) _ _ => apply wp_recordErr
  | |- wp readErrs _ _ => apply wp_readErrs
  | |- wp (writeErrs _) _ _ => apply wp_writeErrs
  | |- wp readCache _ _ => apply wp_readCache
  | |- wp (writeCache _) _ _ => apply wp_writeCache
  | |- wp (call _ _) _ _ => apply wp_call; intros ? ? ?
  | |- wp (callv _ _) _ _ => apply wp_callv; intros ? ? ?
  | |- wp (match ?x with _ => _ end) _ _ => destruct x eqn:?
  end; cbn [client errs recordsCache] in *.

Ltac wp_go := repeat wp_step.

(** Membership in the cache, as facts about its domain. *)
Ltac cache_facts :=
  repeat match goal with
  | H : _ !! _ = Some _ |- _ => apply elem_of_dom_2 in H
  | H : _ !! _ = None |- _ => apply not_elem_of_dom in H
  end.

(** The two outcomes of the Record Locator. *)
Ltac located_cases :=
  match goal with
  | H : getRecIDs _ _ _ = (_, ?o) |- _ => destruct o
  end.

(** [steady] between explicit stores, the trace ending in changes only. *)
Ltac steady_tac :=
  constructor; simpl;
  [ repeat match goal with H : errs _ = _ |- _ => rewrite H end; simpl;
    rewrite ?app_nil_r, <- ?app_assoc; reflexivity
  | cache_facts; repeat split;
    first [ now apply changes_only_lazy | set_solver ]
  | repeat match goal with H : recordsCache _ = _ |- _ => rewrite H end;
    simpl; rewrite ?dom_insert_L, ?changes_only_fetched by assumption;
    set_solver
  | repeat first
      [ apply Forall_nil_2
      | apply Forall_cons_2; [reflexivity |]
      | eapply steps_of_map; [| eassumption]; reflexivity
      | assumption ] ].

Section Phases.
Context {W : Type} {wrapper : AbstractClientWrapper W}.

(** Changes keep the cache and append their errors. *)

(** A loop of change calls, each followed by the recording of its error:
    every call is made, in order, whatever the earlier ones returned. *)
Lemma change_loop {A} (l : list A) (step : A -> Step)
    (op : A -> W -> option error * W) (st : Store W) :
  (forall x, is_mutation (step x) = true) ->
  wp (forEach l (fun x => err <- call (step x) (op x) ;; recordErr err))
     (fun r st' t =>
        r = Val tt /\ map fst t = map step l
        /\ errs st' = errs st ++ failures t
        /\ recordsCache st' = recordsCache st) st.
Proof.
  intros Hm.
  eapply wp_conseq.
  - apply (wp_forEach l _
             (fun done st' t =>
                map fst t = map step done
                /\ errs st' = errs st ++ failures t
                /\ recordsCache st' = recordsCache st)
             (fun _ _ => False)).
    + simpl. now rewrite app_nil_r.
    + intros done x rest st1 t1 _ (Ht & He & Hc). wp_go. simpl.
      split; [now rewrite !List.map_app, Ht |].
      split; [| exact Hc].
      rewrite failures_app, He, <- app_assoc. now destruct err.
  - intros [[]|] st' t; simpl; tauto.
Qed.

(** *** The delete phase *)

Lemma deleteEndpoint_spec zones ep (st : Store W) :
  wp (deleteEndpoint zones ep)
     (fun r st' t =>
        r = Val tt /\ steady delete_step st st' t /\ resolved t = [ep]) st.
Proof.
  unfold deleteEndpoint. wp_go; subst; try discriminate.
  - split; [reflexivity |]. split; [steady_tac | reflexivity].
  - eapply wp_conseq; [now apply change_loop |].
    intros r st2 t2 (-> & Hsteps & He & Hc). cbn [errs recordsCache] in *.
    assert (changes_only t2) by (eapply changes_only_map; [| eassumption]; reflexivity).
    split; [reflexivity |].
    located_cases; (split; [steady_tac |]); simpl; f_equal;
      now apply changes_only_resolved.
  - split; [reflexivity |]. split; [steady_tac | reflexivity].
  - eapply wp_conseq; [now apply change_loop |].
    intros r st2 t2 (-> & Hsteps & He & Hc). cbn [errs recordsCache] in *.
    assert (changes_only t2) by (eapply changes_only_map; [| eassumption]; reflexivity).
    split; [reflexivity |].
    located_cases; (split; [steady_tac |]); simpl; f_equal;
      now apply changes_only_resolved.
  - now rewrite lookup_insert_eq in *.
Qed.

(** *** The create phase *)

Lemma createEndpoint_spec zones ep (st : Store W) :
  wp (createEndpoint zones ep)
     (fun r st' t =>
        r = Val tt /\ steady create_step st st' t /\ resolved t = [ep]
        /\ match getZone zones ep with
           | (zone, None) =>
               map fst t =
               ResolveZone ep
               :: map (fun target => CreateRecord (createRequest zone ep target))
                    (Endpoint.Targets ep)
           | (_, Some e) => t = [(ResolveZone ep, Some e)]
           end) st.
Proof.
  unfold createEndpoint. wp_go; subst.
  - split; [reflexivity |]. split; [steady_tac |]. split; reflexivity.
  - eapply wp_conseq;
      [apply (change_loop _
                (fun target => CreateRecord (createRequest s ep target))
                (fun target => createRecord (createRequest s ep target)));
       reflexivity |].
    intros r st2 t2 (-> & Hsteps & He & Hc). cbn [errs recordsCache] in *.
    assert (changes_only t2)
      by (eapply changes_only_map; [| eassumption]; reflexivity).
    split; [reflexivity |]. split; [steady_tac |].
    split; simpl; f_equal; [now apply changes_only_resolved | exact Hsteps].
Qed.

(** *** The update phase *)

Lemma getRecIDs_located zone records ep recIDs :
  getRecIDs zone records ep = (recIDs, None) ->
  length recIDs = length (Endpoint.Targets ep).
Proof.
  unfold getRecIDs.
  destruct (Nat.eqb_spec
              (length (fold_left (getRecIDs_target zone records ep)
                         (Endpoint.Targets ep) []))
              (length (Endpoint.Targets ep))) as [Heq | Hne]; simpl.
  - now intros [= <-].
  - discriminate.
Qed.

Lemma getRecIDs_unlocated zone records ep recIDs e :
  getRecIDs zone records ep = (recIDs, Some e) ->
  recIDs = [] /\ e = ErrUnmappedTargets /\ Endpoint.Targets ep <> [].
Proof.
  unfold getRecIDs.
  destruct (Nat.eqb_spec
              (length (fold_left (getRecIDs_target zone records ep)
                         (Endpoint.Targets ep) []))
              (length (Endpoint.Targets ep))) as [Heq | Hne]; simpl.
  - discriminate.
  - intros [= <- <-]. repeat split. intros Hnil.
    rewrite Hnil in Hne. now simpl in Hne.
Qed.

Lemma getRecIDs_length_le zone records ep recIDs err :
  getRecIDs zone records ep = (recIDs, err) ->
  length recIDs <= length (Endpoint.Targets ep).
Proof.
  destruct err as [e|]; intros Hget.
  - apply getRecIDs_unlocated in Hget as (-> & _ & _). simpl. lia.
  - apply getRecIDs_located in Hget. lia.
Qed.

Lemma spec_align_change zone oldEp newEp recIDs j s :
  spec_align zone oldEp newEp recIDs j = Some s ->
  is_mutation s = true /\ update_step s = true.
Proof.
  unfold spec_align. repeat case_decide.
  - destruct (recIDs !! j); simpl; intros [= <-]; split; reflexivity.
  - destruct (Endpoint.Targets newEp !! j); simpl; intros [= <-];
      split; reflexivity.
  - destruct (Endpoint.Targets newEp !! j), (recIDs !! j);
      intros [= <-]; split; reflexivity.
Qed.

(** One position of the alignment: the step of the specification is taken
    and its error recorded, or there is no record at [recIDs[j]] and the
    call panics. *)
Lemma alignTarget_spec zone oldEp newEp recIDs j (st : Store W) :
  length recIDs <= length (Endpoint.Targets oldEp) ->
  wp (alignTarget zone (relativeName (Endpoint.DNSName newEp) zone)
        oldEp newEp recIDs j)
     (fun r st' t =>
        errs st' = errs st ++ failures t
        /\ recordsCache st' = recordsCache st
        /\ match spec_align zone oldEp newEp recIDs j with
           | Some s => r = Val tt /\ map fst t = [s]
           | None => r = Panic /\ t = []
           end) st.
Proof.
  intros Hlen. unfold alignTarget, spec_align.
  destruct (Nat.leb_spec (length (Endpoint.Targets newEp)) j) as [Hn | Hn];
    [rewrite decide_True by lia | rewrite decide_False by lia].
  - destruct (recIDs !! j) as [id|] eqn:Hid; simpl.
    + apply lookup_lt_Some in Hid.
      destruct (lookup_lt_is_Some_2 (Endpoint.Targets oldEp) j) as [t Ht];
        [lia |].
      rewrite Ht. wp_go; simpl; rewrite ?app_nil_r; repeat split.
    + wp_go. now rewrite app_nil_r.
  - destruct (lookup_lt_is_Some_2 (Endpoint.Targets newEp) j) as [target Ht];
      [lia |].
    rewrite Ht.
    destruct (Nat.leb_spec (length (Endpoint.Targets oldEp)) j) as [Ho | Ho];
      [rewrite decide_True by lia | rewrite decide_False by lia].
    + wp_go; simpl. now destruct err.
    + destruct (recIDs !! j) as [id|]; wp_go; simpl.
      * now destruct err.
      * now rewrite app_nil_r.
Qed.

(** The alignment loop takes the steps of the specification position by
    position, and recording their errors; it returns exactly when every
    position has its step. *)
Lemma align_loop zone oldEp newEp recIDs (js : list nat) (st : Store W) :
  length recIDs <= length (Endpoint.Targets oldEp) ->
  wp (forEach js
        (alignTarget zone (relativeName (Endpoint.DNSName newEp) zone)
           oldEp newEp recIDs))
     (fun r st' t =>
        (changes_only t
         /\ Forall (fun ev : Event => update_step ev.1 = true) t
         /\ errs st' = errs st ++ failures t
         /\ recordsCache st' = recordsCache st)
        /\ match r with
           | Val _ =>
               map Some (map fst t)
               = map (spec_align zone oldEp newEp recIDs) js
           | Panic =>
               exists j, j ∈ js /\ spec_align zone oldEp newEp recIDs j = None
           end) st.
Proof.
  intros Hlen. eapply wp_conseq.
  - apply (wp_forEach js _
             (fun done st' t =>
                (changes_only t
                 /\ Forall (fun ev : Event => update_step ev.1 = true) t
                 /\ errs st' = errs st ++ failures t
                 /\ recordsCache st' = recordsCache st)
                /\ map Some (map fst t)
                   = map (spec_align zone oldEp newEp recIDs) done)
             (fun st' t =>
                (changes_only t
                 /\ Forall (fun ev : Event => update_step ev.1 = true) t
                 /\ errs st' = errs st ++ failures t
                 /\ recordsCache st' = recordsCache st)
                /\ exists j,
                     j ∈ js /\ spec_align zone oldEp newEp recIDs j = None)).
    + simpl. rewrite app_nil_r. repeat split; constructor.
    + intros done j rest st1 t1 Hjs ((Hco & Hup & He & Hc) & Hmap).
      eapply wp_conseq; [now apply alignTarget_spec |].
      intros r st2 t2 (He2 & Hc2 & Hspec).
      destruct (spec_align zone oldEp newEp recIDs j) as [s|] eqn:Hs.
      * destruct Hspec as [-> Ht2].
        destruct (spec_align_change _ _ _ _ _ _ Hs) as [Hm Hu].
        destruct t2 as [|[s' o] [|? ?]]; try discriminate.
        injection Ht2 as ->.
        split; [split; [| split; [| split]] |].
        -- apply Forall_app. split; [assumption | now constructor].
        -- apply Forall_app. split; [assumption | now constructor].
        -- now rewrite He2, He, failures_app, <- app_assoc.
        -- congruence.
        -- rewrite !List.map_app, Hmap. simpl. now rewrite Hs.
      * destruct Hspec as [-> ->]. rewrite app_nil_r.
        split; [repeat split; try assumption |].
        -- now rewrite He2, He, app_nil_r.
        -- congruence.
        -- exists j. split; [| assumption]. rewrite Hjs. set_solver.
  - intros [[]|] st' t; simpl; tauto.
Qed.



(** Without identifiers the first position has no step. *)
Lemma spec_align_undefined zone oldEp newEp :
  Endpoint.Targets oldEp <> [] ->
  0 ∈ spec_positions oldEp newEp []
  /\ spec_align zone oldEp newEp [] 0 = None.
Proof.
  intros Hold. unfold spec_positions, spec_align.
  destruct (Endpoint.Targets oldEp) as [|t ts]; [contradiction |]. simpl.
  split; [apply elem_of_seq; lia |].
  repeat case_decide; try lia; [reflexivity |].
  now destruct (Endpoint.Targets newEp).
Qed.

(** The steps of an update pair whose zone resolves and whose records are
    at hand: the alignment runs over the positions of the specification,
    and returns exactly when none of them lacks its record. *)
Lemma updateEndpoint_resolved zones changes i oldEp newEp zone records
    (st : Store W) :
  Changes.UpdateNew changes !! i = Some newEp ->
  getZone zones oldEp = (zone, None) ->
  (recordsCache st !! zone = Some records
   \/ recordsCache st !! zone = None
      /\ (getRecords zone (client st)).1 = inr records) ->
  wp (updateEndpoint zones changes i oldEp)
     (fun r st' t =>
        let recIDs := (getRecIDs zone records oldEp).1 in
        errs st' = errs st ++ failures t
        /\ match r with
           | Val _ =>
               map Some (mutations t)
               = map (spec_align zone oldEp newEp recIDs)
                   (spec_positions oldEp newEp recIDs)
           | Panic =>
               exists j, j ∈ spec_positions oldEp newEp recIDs
                         /\ spec_align zone oldEp newEp recIDs j = None
           end) st.
Proof.
  intros Hnew Hzone Hrecords. unfold updateEndpoint. rewrite Hnew, Hzone.
  destruct Hrecords as [Hc | [Hc Hfetch]].
  - wp_go; try congruence. simplify_eq.
    match goal with H : getRecIDs _ _ _ = _ |- _ => rewrite H end.
    eapply wp_conseq;
      [apply align_loop; eapply getRecIDs_length_le; eassumption |].
    intros r st2 t2 ((Hco & _ & He & _) & Hr). cbn [errs fst] in *.
    split.
    + rewrite He. simpl. rewrite <- app_assoc. now located_cases.
    + destruct r; simpl; [| exact Hr].
      transitivity (map Some (mutations t2)); [reflexivity |].
      rewrite changes_only_mutations by assumption. exact Hr.
  - wp_go; try congruence;
      match goal with
      | H : getRecords _ _ = _ |- _ => rewrite H in Hfetch; simpl in Hfetch
      end; try discriminate.
    + rewrite lookup_insert_eq in *. simplify_eq.
      match goal with H : getRecIDs _ _ _ = _ |- _ => rewrite H end.
      eapply wp_conseq;
      [apply align_loop; eapply getRecIDs_length_le; eassumption |].
      intros r st2 t2 ((Hco & _ & He & _) & Hr). cbn [errs fst] in *.
      split.
      * rewrite He. simpl. rewrite <- app_assoc. now located_cases.
      * destruct r; simpl; [| exact Hr].
        transitivity (map Some (mutations t2)); [reflexivity |].
        rewrite changes_only_mutations by assumption. exact Hr.
    + now rewrite lookup_insert_eq in *.
Qed.

(** *** The three loops *)

Lemma deletePhase_spec zones changes (st : Store W) :
  wp (deletePhase zones changes)
     (fun r st' t =>
        r = Val tt /\ steady delete_step st st' t
        /\ resolved t = Changes.Delete changes) st.
Proof.
  unfold deletePhase. eapply wp_conseq.
  - apply (wp_forEach _ _
             (fun done st' t => steady delete_step st st' t /\ resolved t = done)
             (fun _ _ => False)).
    + split; [apply steady_refl | reflexivity].
    + intros done ep rest st1 t1 _ [Hst Hres].
      eapply wp_conseq; [apply deleteEndpoint_spec |].
      intros r st2 t2 (-> & Hst2 & Hres2).
      split; [eapply steady_trans; eassumption |].
      now rewrite resolved_app, Hres, Hres2.
  - intros [[]|] st' t; simpl; tauto.
Qed.

Lemma createPhase_spec zones changes (st : Store W) :
  wp (createPhase zones changes)
     (fun r st' t =>
        r = Val tt /\ steady create_step st st' t
        /\ resolved t = Changes.Create changes) st.
Proof.
  unfold createPhase. eapply wp_conseq.
  - apply (wp_forEach _ _
             (fun done st' t => steady create_step st st' t /\ resolved t = done)
             (fun _ _ => False)).
    + split; [apply steady_refl | reflexivity].
    + intros done ep rest st1 t1 _ [Hst Hres].
      eapply wp_conseq; [apply createEndpoint_spec |].
      intros r st2 t2 (-> & Hst2 & Hres2 & _).
      split; [eapply steady_trans; eassumption |].
      now rewrite resolved_app, Hres, Hres2.
  - intros [[]|] st' t; simpl; tauto.
Qed.


(** *** The whole call *)


End Phases.

(** ** Fetches of a phase *)









(** ** The update phase, pair by pair *)




(** When the old targets are not located, [recIDs] is empty and the first
    position of the alignment panics. *)
Lemma updateEndpoint_unlocated_panics {W} {wrapper : AbstractClientWrapper W}
    zones changes i oldEp newEp zone records e (st : Store W) :
  Changes.UpdateNew changes !! i = Some newEp ->
  getZone zones oldEp = (zone, None) ->
  (recordsCache st !! zone = Some records
   \/ recordsCache st !! zone = None
      /\ (getRecords zone (client st)).1 = inr records) ->
  (getRecIDs zone records oldEp).2 = Some e ->
  outcome (updateEndpoint zones changes i oldEp st) = Panic.
Proof.
  intros Hnew Hzone Hrecords Hloc.
  pose proof (updateEndpoint_resolved zones changes i oldEp newEp zone
                records st Hnew Hzone Hrecords) as Hrun.
  unfold wp in Hrun.
  destruct (getRecIDs zone records oldEp) as [recIDs o] eqn:Hget.
  simpl in Hloc. subst o.
  apply getRecIDs_unlocated in Hget as (-> & _ & Hold).
  simpl in Hrun. destruct Hrun as [_ Hr].
  destruct (outcome (updateEndpoint zones changes i oldEp st)) as [[]|];
    [| reflexivity].
  destruct (spec_align_undefined zone oldEp newEp Hold) as [Hin Hnone].
  apply list_elem_of_split in Hin as (pre & post & Hpos).
  rewrite Hpos, List.map_app in Hr. simpl in Hr. rewrite Hnone in Hr.
  apply (f_equal (fun l => l !! length pre)) in Hr.
  rewrite list_lookup_middle in Hr by now rewrite length_map.
  apply list_lookup_fmap_Some in Hr as (? & ? & _). discriminate.
Qed.

(** C6 (defect): an update of a name that has no record in the zone.  The
    locator fails, its error is recorded, and the delete branch then reads
    [recIDs[0]] of an empty [recIDs]: [ApplyChanges] panics instead of
    returning, after the deferred logout. *)
Theorem ApplyChanges_unlocated_update_panics :
  outcome (ApplyChanges unlocated_changes (initial bare_mock)) = Panic
  /\ steps (ApplyChanges unlocated_changes (initial bare_mock))
     = [(Login, None); (GetZones, None);
        (ResolveZone (Endpoint.mk "a.example.com" "A" 300 ["1.1.1.1"]), None);
        (GetRecords "example.com", None);
        (LocateRecords "example.com"
           (Endpoint.mk "a.example.com" "A" 300 ["1.1.1.1"]),
         Some ErrUnmappedTargets);
        (Logout, None)].
Proof. split; reflexivity. Qed.

(** ** The create phase, endpoint by endpoint *)

Lemma relativeName_apex zone : relativeName zone zone = "".
Proof. unfold relativeName. now rewrite String.eqb_refl. Qed.

Lemma relativeName_strips name zone :
  relativeName (name +:+ "." +:+ zone) zone = name.
Proof.
  unfold relativeName.
  destruct (String.eqb_spec (name +:+ "." +:+ zone) zone) as [Heq | _].
  - apply (f_equal String.length) in Heq.
    rewrite !string_length_app in Heq. simpl in Heq. lia.
  - apply (TrimSuffix_app name ("." +:+ zone)).
Qed.





(** ** The whole call *)









(** ** The listing path *)

(** C5 (defect): for the record at the apex of the zone (empty relative
    name) [Records] builds the name ["" + "." + zone], with a leading dot,
    and hands it to the endpoint constructor, where the invariant asks for
    the zone name itself. *)
Theorem Records_apex_name_has_leading_dot
    (NewEndpointWithTTL : string -> string -> Z -> list string -> Endpoint) :
  outcome (Records NewEndpointWithTTL (initial apex_mock))
  = Val (inr [NewEndpointWithTTL ".example.com" "A" 300%Z ["1.2.3.4"]])
  /\ spec_fqdn "example.com" "" = "example.com"
  /\ targetDNSName "example.com"
       (NameserverRecord.mk 0 "" "A" "1.2.3.4" 300 0) = "example.com"
  /\ forall zone endpoints id type content ttl priority,
       Records_record NewEndpointWithTTL zone endpoints
         (NameserverRecord.mk id "" type content ttl priority)
       = endpoints ++ [NewEndpointWithTTL ("." +:+ zone) type ttl [content]].
Proof. repeat split; reflexivity. Qed.

(** ** The examples of the specification, run on the model *)

Example getZone_prefers_nested_zone :
  getZone ["example.com"; "sub.example.com"]
    (Endpoint.mk "a.sub.example.com" "A" 300 ["1.2.3.4"])
  = ("sub.example.com", None).
Proof. reflexivity. Qed.

Example getRecIDs_two_targets :
  getRecIDs "example.com"
    [NameserverRecord.mk 4 "www" "A" "5.6.7.8" 300 0;
     NameserverRecord.mk 3 "www" "A" "1.2.3.4" 300 0]
    (Endpoint.mk "www.example.com" "A" 300 ["1.2.3.4"; "5.6.7.8"])
  = ([3%Z; 4%Z], None).
Proof. reflexivity. Qed.

Example relativeName_www : relativeName "www.example.com" "example.com" = "www".
Proof. reflexivity. Qed.

(** Growing target list: position 0 is updated in place with the old TTL,
    position 1 is created with the new TTL. *)
Example update_grows :
  mutations (steps example_update_run)
  = [UpdateRecord 0
       (NameserverRecordRequest.mk "example.com" "a" "A" "1.1.1.9" 300 0);
     CreateRecord
       (NameserverRecordRequest.mk "example.com" "a" "A" "1.1.1.8" 600 0)].
Proof. reflexivity. Qed.

(** Shrinking target list: position 0 is updated, position 1 is deleted. *)
Example update_shrinks :
  mutations
    (steps
       (updateEndpoint ["example.com"]
          (Changes.mk []
             [Endpoint.mk "a.example.com" "A" 300 ["1.1.1.1"; "2.2.2.2"]]
             [Endpoint.mk "a.example.com" "A" 300 ["1.1.1.1"]] [])
          0 (Endpoint.mk "a.example.com" "A" 300 ["1.1.1.1"; "2.2.2.2"])
          (mkStore bare_mock []
             {["example.com" :=
                 [NameserverRecord.mk 0 "a" "A" "1.1.1.1" 300 0;
                  NameserverRecord.mk 1 "a" "A" "2.2.2.2" 300 0]]})))
  = [UpdateRecord 0
       (NameserverRecordRequest.mk "example.com" "a" "A" "1.1.1.1" 300 0);
     DeleteRecord 1].
Proof. reflexivity. Qed.

(** The whole of [example_changes] on [example_mock]: [b] is deleted, [z] is
    not located, [c] is created, [a] is updated and extended; one failure. *)
Example example_run_mutations :
  mutations (steps (ApplyChanges example_changes (initial example_mock)))
  = [DeleteRecord 1;
     CreateRecord
       (NameserverRecordRequest.mk "example.com" "c" "A" "3.3.3.3" 300 0);
     UpdateRecord 0
       (NameserverRecordRequest.mk "example.com" "a" "A" "1.1.1.9" 300 0);
     CreateRecord
       (NameserverRecordRequest.mk "example.com" "a" "A" "1.1.1.8" 600 0)]
  /\ failures (steps (ApplyChanges example_changes (initial example_mock)))
     = [ErrUnmappedTargets].
Proof. split; reflexivity. Qed.

(** * Further properties of the code *)

(** ** Zone Resolver: the order of the zones does not matter *)

Lemma string_app_inj_length (p1 p2 a b : string) :
  p1 +:+ a = p2 +:+ b -> String.length a = String.length b -> a = b.
Proof.
  revert p2. induction p1 as [|c p1 IH]; intros [|c2 p2] Heq Hlen; simpl in *.
  - exact Heq.
  - apply (f_equal String.length) in Heq.
    rewrite !string_length_app in Heq. simpl in Heq. lia.
  - apply (f_equal String.length) in Heq.
    rewrite !string_length_app in Heq. simpl in Heq. lia.
  - injection Heq as _ Heq. now apply (IH p2).
Qed.

Lemma suffixes_same_length (n a b : string) :
  HasSuffix n a = true -> HasSuffix n b = true ->
  String.length a = String.length b -> a = b.
Proof.
  intros Ha Hb Hlen. apply HasSuffix_true in Ha as [p1 Hp1].
  apply HasSuffix_true in Hb as [p2 Hp2]. subst n.
  now apply (string_app_inj_length p1 p2).
Qed.

Lemma getZone_step_comm (ep : Endpoint) (acc : string * option error)
    (a b : string) :
  getZone_step ep (getZone_step ep acc a) b
  = getZone_step ep (getZone_step ep acc b) a.
Proof.
  destruct acc as [m err]. unfold getZone_step. simpl.
  destruct (HasSuffix (Endpoint.DNSName ep) a) eqn:Ha,
           (HasSuffix (Endpoint.DNSName ep) b) eqn:Hb; simpl;
    rewrite ?Ha, ?Hb; simpl;
    try (destruct (String.length m <? String.length a)%nat; simpl;
         rewrite ?Ha, ?Hb; reflexivity);
    try (destruct (String.length m <? String.length b)%nat; simpl;
         rewrite ?Ha, ?Hb; reflexivity);
    try reflexivity.
  - destruct (Nat.ltb_spec (String.length m) (String.length a)) as [Hma | Hma],
             (Nat.ltb_spec (String.length m) (String.length b)) as [Hmb | Hmb];
      simpl; rewrite ?Ha, ?Hb; simpl.
    + destruct (Nat.ltb_spec (String.length a) (String.length b)) as [Hab | Hab],
               (Nat.ltb_spec (String.length b) (String.length a)) as [Hba | Hba];
        try reflexivity; try lia.
      f_equal. apply (suffixes_same_length (Endpoint.DNSName ep)); [assumption .. | lia].
    + destruct (Nat.ltb_spec (String.length a) (String.length b)); [lia |].
      destruct (Nat.ltb_spec (String.length m) (String.length a)); [| lia].
      reflexivity.
    + destruct (Nat.ltb_spec (String.length b) (String.length a)); [lia |].
      destruct (Nat.ltb_spec (String.length m) (String.length b)); [| lia].
      reflexivity.
    + destruct (Nat.ltb_spec (String.length m) (String.length a)); [lia |].
      destruct (Nat.ltb_spec (String.length m) (String.length b)); [lia |].
      reflexivity.
Qed.

(** X1: [getZone] gives the same zone (or the same error) for every order
    of the zone list: the registrar and the mock list zones in no
    particular order. *)
Theorem getZone_order_independent (zones zones' : list string) (ep : Endpoint) :
  zones ≡ₚ zones' -> getZone zones ep = getZone zones' ep.
Proof.
  intros Hperm. unfold getZone.
  generalize ("", Some (ErrNoMatchingZone ep)).
  induction Hperm as [|z l l' _ IH|a b l|l l' l'' _ IH1 _ IH2]; intros acc;
    simpl.
  - reflexivity.
  - apply IH.
  - now rewrite getZone_step_comm.
  - now rewrite IH1.
Qed.

Lemma getZone_order_independent_witness :
  ["example.com"; "sub.example.com"] ≡ₚ ["sub.example.com"; "example.com"]
  /\ getZone ["example.com"; "sub.example.com"] www_endpoint
     = getZone ["sub.example.com"; "example.com"] www_endpoint.
Proof.
  assert (["example.com"; "sub.example.com"]
          ≡ₚ ["sub.example.com"; "example.com"]) as Hperm
    by apply Permutation_swap.
  split; [exact Hperm |].
  exact (getZone_order_independent _ _ www_endpoint Hperm).
Defined.

(** ** Record Locator: alignment when no target has two records *)

Lemma flat_map_singletons {A B} (g : A -> list B) (l : list A) :
  (forall x, x ∈ l -> length (g x) <= 1) ->
  (length (flat_map g l) = length l /\ Forall2 (fun x y => g x = [y]) l (flat_map g l))
  \/ (length (flat_map g l) < length l /\ exists x, x ∈ l /\ g x = []).
Proof.
  induction l as [|x l IH]; intros Hone; simpl.
  - left. split; [reflexivity | constructor].
  - assert (length (g x) <= 1) as Hx by (apply Hone; set_solver).
    destruct IH as [[Hlen Hall] | [Hlen (y & Hy & Hnone)]];
      [intros y Hy; apply Hone; set_solver | |].
    + destruct (g x) as [|b [|b' bs]] eqn:Hg; simpl in *; try lia.
      * right. split; [lia |]. exists x. split; [set_solver | assumption].
      * left. split; [lia |]. constructor; assumption.
    + right. rewrite length_app. split; [lia |].
      exists y. split; [set_solver | assumption].
Qed.

(** X2: when no target of the endpoint matches more than one record of the
    snapshot, [getRecIDs] succeeds exactly when every target has its
    record, the identifiers are then index-aligned with the targets, and a
    failure means that some target has no record. *)
Theorem getRecIDs_aligned_without_duplicates (zone : string)
    (records : list NameserverRecord) (ep : Endpoint) :
  (forall target, target ∈ Endpoint.Targets ep ->
     length (List.filter (spec_matches zone ep target) records) <= 1) ->
  match getRecIDs zone records ep with
  | (recIDs, None) =>
      Forall2
        (fun target id =>
           exists record,
             List.filter (spec_matches zone ep target) records = [record]
             /\ NameserverRecord.ID record = id)
        (Endpoint.Targets ep) recIDs
  | (recIDs, Some e) =>
      recIDs = [] /\ e = ErrUnmappedTargets
      /\ exists target,
           target ∈ Endpoint.Targets ep
           /\ List.filter (spec_matches zone ep target) records = []
  end.
Proof.
  intros Hone. unfold getRecIDs. rewrite getRecIDs_loop_spec. simpl.
  set (g := fun target =>
              map NameserverRecord.ID
                (List.filter (spec_matches zone ep target) records)).
  destruct (flat_map_singletons g (Endpoint.Targets ep))
    as [[Hlen Hall] | [Hlen (target & Hin & Hnone)]].
  - intros target Hin. unfold g. rewrite length_map. now apply Hone.
  - apply Nat.eqb_eq in Hlen. rewrite Hlen. simpl.
    eapply Forall2_impl; [exact Hall |].
    intros target id Hg. unfold g in Hg.
    destruct (List.filter (spec_matches zone ep target) records)
      as [|record [|? ?]]; try discriminate.
    injection Hg as <-. now exists record.
  - assert (length (flat_map g (Endpoint.Targets ep))
            <> length (Endpoint.Targets ep)) as Hne by lia.
    apply Nat.eqb_neq in Hne. rewrite Hne. simpl.
    repeat split. exists target. split; [assumption |].
    unfold g in Hnone. now apply map_eq_nil in Hnone.
Qed.

Lemma getRecIDs_aligned_without_duplicates_witness :
  (forall target, target ∈ Endpoint.Targets example_old ->
     length (List.filter (spec_matches "example.com" example_old target)
               example_records) <= 1)
  /\ Forall2
       (fun target id =>
          exists record,
            List.filter (spec_matches "example.com" example_old target)
              example_records = [record]
            /\ NameserverRecord.ID record = id)
       (Endpoint.Targets example_old) [0%Z].
Proof.
  assert (forall target, target ∈ Endpoint.Targets example_old ->
            length (List.filter (spec_matches "example.com" example_old target)
                      example_records) <= 1) as Hone.
  { intros target Hin. apply list_elem_of_singleton in Hin. subst target.
    simpl. lia. }
  split; [exact Hone |].
  exact (getRecIDs_aligned_without_duplicates "example.com" example_records
           example_old Hone).
Defined.

(** ** The relative name and the fully-qualified name *)

(** X3: the name the create phase sends and the fully-qualified name the
    locator derives are inverse to each other exactly for the DNS names that
    are the zone name or a non-empty label sequence, a dot and the zone
    name: only records created for such names are found again under the
    endpoint's DNS name. *)
Theorem relativeName_round_trip (dnsName zone : string) (id : Z)
    (type content : string) (ttl priority : Z) :
  targetDNSName zone
    (NameserverRecord.mk id (relativeName dnsName zone) type content ttl
       priority) = dnsName
  <-> dnsName = zone
      \/ exists name, name <> "" /\ dnsName = name +:+ "." +:+ zone.
Proof.
  rewrite targetDNSName_spec. simpl. split.
  - intros Hfq. destruct (relativeName dnsName zone) as [|c name] eqn:Hrel.
    + left. now simpl in Hfq.
    + right. exists (String c name). split; [discriminate |].
      now simpl in Hfq.
  - intros [-> | (name & Hne & ->)].
    + now rewrite relativeName_apex.
    + rewrite relativeName_strips. destruct name; [contradiction | reflexivity].
Qed.

(** X4: the other direction holds for every record: its name is recovered
    from the fully-qualified name that [getRecIDs] derives for it. *)
Theorem relativeName_of_targetDNSName (zone : string) (record : NameserverRecord) :
  relativeName (targetDNSName zone record) zone = NameserverRecord.Name record.
Proof.
  rewrite targetDNSName_spec. unfold spec_fqdn.
  destruct (NameserverRecord.Name record) as [|c name] eqn:Hname.
  - apply relativeName_apex.
  - apply (relativeName_strips (String c name)).
Qed.

(** ** The mock: the shape of its states *)

Lemma mock_wf_empty : mock_wf MockClientWrapper.empty.
Proof.
  split; simpl.
  - intros zone recs i rec Hz. now rewrite lookup_empty in Hz.
  - intros id zone Hid. now rewrite lookup_empty in Hid.
Qed.

Lemma mock_wf_CreateZone zone w w' :
  mock_wf w -> MockClientWrapper.CreateZone zone w = Some w' -> mock_wf w'.
Proof.
  intros [Hslots Hids]. unfold MockClientWrapper.CreateZone.
  destruct (MockClientWrapper.db w !! zone) eqn:Hz; [discriminate |].
  intros [= <-]. split; simpl.
  - intros zone' recs i rec Hz' Hi.
    destruct (decide (zone = zone')) as [<- | Hne].
    + rewrite lookup_insert_eq in Hz'. injection Hz' as <-.
      now rewrite lookup_nil in Hi.
    + rewrite lookup_insert_ne in Hz' by assumption. eauto.
  - intros id zone' Hid. destruct (Hids id zone' Hid) as (recs & Hz' & Hr).
    exists recs. split; [| assumption].
    rewrite lookup_insert_ne; [assumption | congruence].
Qed.

Lemma mock_wf_createRecord r w :
  mock_wf w -> mock_wf (MockClientWrapper.createRecord r w).2.
Proof.
  intros [Hslots Hids]. unfold MockClientWrapper.createRecord.
  destruct (MockClientWrapper.db w !! NameserverRecordRequest.Domain r)
    as [recs|] eqn:Hz; simpl; [| now split].
  split; simpl.
  - intros zone recs' i rec Hz' Hi.
    destruct (decide (NameserverRecordRequest.Domain r = zone)) as [<- | Hne].
    + rewrite lookup_insert_eq in Hz'. injection Hz' as <-.
      apply lookup_app_Some in Hi as [Hi | [Hlen Hi]]; [eauto |].
      apply list_lookup_singleton_Some in Hi as [Hi <-]. simpl. left. lia.
    + rewrite lookup_insert_ne in Hz' by assumption. eauto.
  - intros id zone Hid.
    destruct (decide (Z.of_nat (length recs) = id)) as [<- | Hne].
    + rewrite lookup_insert_eq in Hid. injection Hid as <-.
      eexists. rewrite lookup_insert_eq. split; [reflexivity |].
      rewrite length_app. simpl. lia.
    + rewrite lookup_insert_ne in Hid by assumption.
      destruct (Hids id zone Hid) as (recs' & Hz' & Hr).
      destruct (decide (NameserverRecordRequest.Domain r = zone)) as [<- | Hnz].
      * eexists. rewrite lookup_insert_eq. split; [reflexivity |].
        rewrite length_app. simpl. simplify_eq. lia.
      * exists recs'. now rewrite lookup_insert_ne.
Qed.

Lemma mock_wf_updateRecord recID r w :
  mock_wf w -> mock_wf (MockClientWrapper.updateRecord recID r w).2.
Proof.
  intros [Hslots Hids]. unfold MockClientWrapper.updateRecord.
  destruct (MockClientWrapper.db w !! NameserverRecordRequest.Domain r)
    as [recs|] eqn:Hz; simpl; [| now split].
  destruct (Z.leb_spec (Z.of_nat (length recs)) recID); simpl; [now split |].
  destruct (Z.ltb_spec recID 0); simpl; [now split |].
  destruct (recs !! Z.to_nat recID) as [old|] eqn:Hold; simpl; [| now split].
  destruct (NameserverRecord.ID old =? -1)%Z; simpl; [now split |].
  split; simpl.
  - intros zone recs' i rec Hz' Hi.
    destruct (decide (NameserverRecordRequest.Domain r = zone)) as [<- | Hne].
    + rewrite lookup_insert_eq in Hz'. injection Hz' as <-.
      destruct (decide (Z.to_nat recID = i)) as [<- | Hni].
      * rewrite list_lookup_insert_eq in Hi
          by (now apply lookup_lt_Some in Hold).
        injection Hi as <-. simpl. left. lia.
      * rewrite list_lookup_insert_ne in Hi by assumption. eauto.
    + rewrite lookup_insert_ne in Hz' by assumption. eauto.
  - intros id zone Hid. destruct (Hids id zone Hid) as (recs' & Hz' & Hr).
    destruct (decide (NameserverRecordRequest.Domain r = zone)) as [<- | Hnz].
    + eexists. rewrite lookup_insert_eq. split; [reflexivity |].
      rewrite length_insert. simplify_eq. lia.
    + exists recs'. now rewrite lookup_insert_ne.
Qed.

Lemma mock_wf_deleteRecord recID w :
  mock_wf w -> mock_wf (MockClientWrapper.deleteRecord recID w).2.
Proof.
  intros [Hslots Hids]. unfold MockClientWrapper.deleteRecord.
  destruct (MockClientWrapper.idToZone w !! recID) as [zone|] eqn:Hid;
    simpl; [| now split].
  destruct (MockClientWrapper.db w !! zone) as [recs|] eqn:Hz; simpl;
    [| now split].
  destruct (Z.leb_spec (Z.of_nat (length recs)) recID); simpl; [now split |].
  destruct (Z.ltb_spec recID 0); simpl; [now split |].
  destruct (recs !! Z.to_nat recID) as [old|] eqn:Hold; simpl; [| now split].
  destruct (NameserverRecord.ID old =? -1)%Z; simpl; [now split |].
  split; simpl.
  - intros zone' recs' i rec Hz' Hi.
    destruct (decide (zone = zone')) as [<- | Hne].
    + rewrite lookup_insert_eq in Hz'. injection Hz' as <-.
      destruct (decide (Z.to_nat recID = i)) as [<- | Hni].
      * rewrite list_lookup_insert_eq in Hi
          by (now apply lookup_lt_Some in Hold).
        injection Hi as <-. simpl. now right.
      * rewrite list_lookup_insert_ne in Hi by assumption. eauto.
    + rewrite lookup_insert_ne in Hz' by assumption. eauto.
  - intros id zone' Hid'. destruct (Hids id zone' Hid') as (recs' & Hz' & Hr).
    destruct (decide (zone = zone')) as [<- | Hnz].
    + eexists. rewrite lookup_insert_eq. split; [reflexivity |].
      rewrite length_insert. simplify_eq. lia.
    + exists recs'. now rewrite lookup_insert_ne.
Qed.

(** X5: whatever zones are created and whatever records are created,
    updated and deleted, with or without success, the record in slot [i] of
    a zone carries the identifier [i] or the deletion mark, and every
    identifier of [idToZone] is a slot of a zone of [db]. *)
Theorem mock_reachable_wf (w : MockClientWrapper.t) :
  mock_reachable w -> mock_wf w.
Proof.
  induction 1 as [|zone w w' _ IH Hzone|r w _ IH|recID r w _ IH|recID w _ IH].
  - apply mock_wf_empty.
  - now apply (mock_wf_CreateZone zone w).
  - now apply mock_wf_createRecord.
  - now apply mock_wf_updateRecord.
  - now apply mock_wf_deleteRecord.
Qed.

Lemma example_mock_reachable : mock_reachable example_mock.
Proof.
  change (mock_reachable
              (MockClientWrapper.createRecord
                 (NameserverRecordRequest.mk "example.com" "b" "A" "2.2.2.2"
                    300 0)
                 (MockClientWrapper.createRecord
                    (NameserverRecordRequest.mk "example.com" "a" "A"
                       "1.1.1.1" 300 0)
                    bare_mock).2).2).
  apply reach_createRecord, reach_createRecord.
  apply (reach_CreateZone "example.com" MockClientWrapper.empty);
    [apply reach_empty | reflexivity].
Defined.

Lemma example_mock_wf : mock_wf example_mock.
Proof.
  apply mock_wf_createRecord, mock_wf_createRecord.
  apply (mock_wf_CreateZone "example.com" MockClientWrapper.empty);
    [apply mock_wf_empty | reflexivity].
Defined.

Lemma mock_reachable_wf_witness :
  mock_reachable example_mock /\ mock_wf example_mock.
Proof.
  split; [exact example_mock_reachable |].
  exact (mock_reachable_wf example_mock example_mock_reachable).
Defined.

(** ** The mock: listing, creation, update and deletion *)

Lemma mock_listing_lookup zone w :
  mock_listing zone w
  = match MockClientWrapper.db w !! zone with
    | Some recs => inr (List.filter undeleted recs)
    | None =>
        inl (ErrClient ("unable to retrieve records for zone " +:+ zone
                        +:+ ": key not found in mock db"))
    end.
Proof.
  unfold mock_listing, MockClientWrapper.getRecords.
  now destruct (MockClientWrapper.db w !! zone).
Qed.

Lemma undeleted_slot (recs : list NameserverRecord) i rec :
  (forall i rec, recs !! i = Some rec ->
     NameserverRecord.ID rec = Z.of_nat i
     \/ NameserverRecord.ID rec = (-1)%Z) ->
  recs !! i = Some rec -> undeleted rec = true ->
  NameserverRecord.ID rec = Z.of_nat i.
Proof.
  intros Hslots Hi Hun. destruct (Hslots i rec Hi) as [Hid | Hid];
    [assumption |].
  unfold undeleted in Hun. rewrite Hid in Hun. discriminate.
Qed.

Lemma elem_of_filter_slot (recs : list NameserverRecord) rec :
  (forall i rec, recs !! i = Some rec ->
     NameserverRecord.ID rec = Z.of_nat i
     \/ NameserverRecord.ID rec = (-1)%Z) ->
  rec ∈ List.filter undeleted recs ->
  exists i, recs !! i = Some rec /\ NameserverRecord.ID rec = Z.of_nat i.
Proof.
  intros Hslots Hin. apply list_elem_of_In, filter_In in Hin as [Hin Hun].
  apply list_elem_of_In, list_elem_of_lookup in Hin as [i Hi].
  exists i. split; [assumption |]. now apply (undeleted_slot recs).
Qed.

Lemma slots_NoDup (recs : list NameserverRecord) :
  (forall i rec, recs !! i = Some rec ->
     NameserverRecord.ID rec = Z.of_nat i
     \/ NameserverRecord.ID rec = (-1)%Z) ->
  NoDup (map NameserverRecord.ID (List.filter undeleted recs)).
Proof.
  induction recs as [|x recs IH] using rev_ind; intros Hslots.
  - constructor.
  - assert (forall i rec, recs !! i = Some rec ->
              NameserverRecord.ID rec = Z.of_nat i
              \/ NameserverRecord.ID rec = (-1)%Z) as Hslots'.
    { intros i rec Hi. apply Hslots. now apply lookup_app_l_Some. }
    rewrite List.filter_app, List.map_app. apply NoDup_app.
    split; [now apply IH |]. split.
    + intros id Hid Hx. simpl in Hx.
      destruct (undeleted x) eqn:Hun; simpl in Hx; [| inversion Hx].
      apply list_elem_of_singleton in Hx. subst id.
      apply list_elem_of_fmap in Hid as (rec & Heq & Hrec).
      apply (elem_of_filter_slot recs rec Hslots') in Hrec as (i & Hi & Hidi).
      assert (NameserverRecord.ID x = Z.of_nat (length recs)) as Hidx.
      { apply (undeleted_slot (recs ++ [x])); [assumption | | assumption].
        now rewrite list_lookup_middle. }
      apply lookup_lt_Some in Hi. lia.
    + simpl. destruct (undeleted x); simpl;
        [apply NoDup_singleton | constructor].
Qed.

(** X6: in a state of that shape, the records listed for a zone have
    pairwise different, non-negative identifiers, and each sits in the slot
    of its identifier. *)
Theorem mock_listing_identifiers (zone : string) (w : MockClientWrapper.t)
    (records : list NameserverRecord) :
  mock_wf w ->
  mock_listing zone w = inr records ->
  NoDup (map NameserverRecord.ID records)
  /\ forall rec, rec ∈ records ->
       (0 <= NameserverRecord.ID rec)%Z
       /\ exists recs,
            MockClientWrapper.db w !! zone = Some recs
            /\ recs !! Z.to_nat (NameserverRecord.ID rec) = Some rec.
Proof.
  intros [Hslots _]. rewrite mock_listing_lookup.
  destruct (MockClientWrapper.db w !! zone) as [recs|] eqn:Hz;
    [| discriminate].
  intros [= <-]. split; [apply slots_NoDup; eauto |].
  intros rec Hrec.
  apply (elem_of_filter_slot recs rec
           (fun i rec Hi => Hslots zone recs i rec Hz Hi)) in Hrec
    as (i & Hi & Hid).
  split; [lia |]. exists recs. split; [reflexivity |].
  now rewrite Hid, Nat2Z.id.
Qed.

Lemma mock_listing_identifiers_witness :
  mock_wf example_mock
  /\ mock_listing "example.com" example_mock = inr example_records
  /\ NoDup (map NameserverRecord.ID example_records)
  /\ forall rec, rec ∈ example_records ->
       (0 <= NameserverRecord.ID rec)%Z
       /\ exists recs,
            MockClientWrapper.db example_mock !! "example.com" = Some recs
            /\ recs !! Z.to_nat (NameserverRecord.ID rec) = Some rec.
Proof.
  assert (mock_wf example_mock) as Hwf by exact example_mock_wf.
  assert (mock_listing "example.com" example_mock = inr example_records)
    as Hlist by reflexivity.
  split; [exact Hwf |]. split; [exact Hlist |].
  exact (mock_listing_identifiers "example.com" example_mock example_records
           Hwf Hlist).
Defined.

Lemma mock_listing_other_zone zone zone' recs w idToZone' :
  zone <> zone' ->
  mock_listing zone'
    (MockClientWrapper.mk (<[zone := recs]> (MockClientWrapper.db w)) idToZone')
  = mock_listing zone' w.
Proof.
  intros Hne. rewrite !mock_listing_lookup. simpl.
  now rewrite lookup_insert_ne.
Qed.

(** X7: creating a record in a zone that exists succeeds; the zone then
    lists its former records followed by the new one, whose identifier is
    not negative and differs from those of all listed records, and the
    listings of the other zones are unchanged. *)
Theorem mock_createRecord_listed (r : NameserverRecordRequest)
    (w : MockClientWrapper.t) (records : list NameserverRecord) :
  mock_wf w ->
  mock_listing (NameserverRecordRequest.Domain r) w = inr records ->
  (MockClientWrapper.createRecord r w).1 = None
  /\ (exists id,
        (0 <= id)%Z /\ id ∉ map NameserverRecord.ID records
        /\ mock_listing (NameserverRecordRequest.Domain r)
             (MockClientWrapper.createRecord r w).2
           = inr (records ++
                  [NameserverRecord.mk id (NameserverRecordRequest.Name r)
                     (NameserverRecordRequest.Type_ r)
                     (NameserverRecordRequest.Content r)
                     (NameserverRecordRequest.TTL r)
                     (NameserverRecordRequest.Priority r)]))
  /\ forall zone, zone <> NameserverRecordRequest.Domain r ->
       mock_listing zone (MockClientWrapper.createRecord r w).2
       = mock_listing zone w.
Proof.
  intros [Hslots _]. rewrite mock_listing_lookup.
  unfold MockClientWrapper.createRecord.
  destruct (MockClientWrapper.db w !! NameserverRecordRequest.Domain r)
    as [recs|] eqn:Hz; [| discriminate].
  intros [= <-]. simpl. split; [reflexivity |]. split.
  - exists (Z.of_nat (length recs)). split; [lia |]. split.
    + intros Hin. apply list_elem_of_fmap in Hin as (rec & Heq & Hrec).
      apply (elem_of_filter_slot recs rec
               (fun i rec Hi => Hslots _ recs i rec Hz Hi)) in Hrec
        as (i & Hi & Hid).
      apply lookup_lt_Some in Hi. lia.
    + rewrite mock_listing_lookup. simpl. rewrite lookup_insert_eq.
      rewrite List.filter_app. simpl.
      replace (undeleted _) with true; [reflexivity |].
      unfold undeleted. simpl. symmetry. apply negb_true_iff, Z.eqb_neq. lia.
  - intros zone Hne. apply mock_listing_other_zone. congruence.
Qed.

Lemma mock_createRecord_listed_witness :
  mock_wf example_mock
  /\ mock_listing "example.com" example_mock = inr example_records
  /\ (MockClientWrapper.createRecord
        (NameserverRecordRequest.mk "example.com" "c" "A" "3.3.3.3" 300 0)
        example_mock).1 = None.
Proof.
  assert (mock_wf example_mock) as Hwf by exact example_mock_wf.
  assert (mock_listing "example.com" example_mock = inr example_records)
    as Hlist by reflexivity.
  split; [exact Hwf |]. split; [exact Hlist |].
  exact (proj1 (mock_createRecord_listed
                  (NameserverRecordRequest.mk "example.com" "c" "A" "3.3.3.3"
                     300 0)
                  example_mock example_records Hwf Hlist)).
Defined.

(** X8: a record that was just created can be deleted under the
    identifier the zone has given it (the number of its slots), and the
    zone then lists what it listed before the creation. *)
Theorem mock_create_then_delete (r : NameserverRecordRequest)
    (w : MockClientWrapper.t) (recs : list NameserverRecord) :
  MockClientWrapper.db w !! NameserverRecordRequest.Domain r = Some recs ->
  let created := (MockClientWrapper.createRecord r w).2 in
  let id := Z.of_nat (length recs) in
  (MockClientWrapper.deleteRecord id created).1 = None
  /\ mock_listing (NameserverRecordRequest.Domain r)
       (MockClientWrapper.deleteRecord id created).2
     = mock_listing (NameserverRecordRequest.Domain r) w.
Proof.
  intros Hz created id. subst created id.
  unfold MockClientWrapper.createRecord. rewrite Hz. simpl.
  unfold MockClientWrapper.deleteRecord. simpl.
  rewrite !lookup_insert_eq.
  destruct (Z.leb_spec (Z.of_nat (length (recs ++ [NameserverRecord.mk
              (Z.of_nat (length recs)) (NameserverRecordRequest.Name r)
              (NameserverRecordRequest.Type_ r)
              (NameserverRecordRequest.Content r)
              (NameserverRecordRequest.TTL r)
              (NameserverRecordRequest.Priority r)])))
             (Z.of_nat (length recs))) as [Hle | _];
    [rewrite length_app in Hle; simpl in Hle; lia |].
  destruct (Z.ltb_spec (Z.of_nat (length recs)) 0) as [Hlt | _]; [lia |].
  rewrite Nat2Z.id, list_lookup_middle by reflexivity. simpl.
  replace (Z.of_nat (length recs) =? -1)%Z with false
    by (symmetry; apply Z.eqb_neq; lia).
  simpl. split; [reflexivity |].
  rewrite !mock_listing_lookup. simpl. rewrite lookup_insert_eq, Hz.
  rewrite insert_app_r_alt by reflexivity. rewrite Nat.sub_diag. simpl.
  rewrite List.filter_app. simpl. now rewrite app_nil_r.
Qed.

Lemma mock_create_then_delete_witness :
  MockClientWrapper.db bare_mock !! "example.com" = Some []
  /\ (MockClientWrapper.deleteRecord 0
        (MockClientWrapper.createRecord
           (NameserverRecordRequest.mk "example.com" "a" "A" "1.1.1.1" 300 0)
           bare_mock).2).1 = None
  /\ mock_listing "example.com"
       (MockClientWrapper.deleteRecord 0
          (MockClientWrapper.createRecord
             (NameserverRecordRequest.mk "example.com" "a" "A" "1.1.1.1" 300 0)
             bare_mock).2).2
     = mock_listing "example.com" bare_mock.
Proof.
  assert (MockClientWrapper.db bare_mock !! "example.com" = Some [])
    as Hz by reflexivity.
  split; [exact Hz |].
  exact (mock_create_then_delete
           (NameserverRecordRequest.mk "example.com" "a" "A" "1.1.1.1" 300 0)
           bare_mock [] Hz).
Defined.

Lemma filter_id_on {A} (Q : A -> bool) (l : list A) :
  (forall x, x ∈ l -> Q x = true) -> List.filter Q l = l.
Proof.
  induction l as [|x l IH]; intros HQ; simpl; [reflexivity |].
  rewrite HQ by set_solver. f_equal. apply IH. intros y Hy. apply HQ.
  set_solver.
Qed.

Lemma map_id_on {A} (f : A -> A) (l : list A) :
  (forall x, x ∈ l -> f x = x) -> map f l = l.
Proof.
  induction l as [|x l IH]; intros Hf; simpl; [reflexivity |].
  rewrite Hf by set_solver. f_equal. apply IH. intros y Hy. apply Hf.
  set_solver.
Qed.

(** The listed records around slot [n] carry other identifiers than [n]. *)
Lemma slots_around (recs : list NameserverRecord) (n : nat) rec :
  (forall i rec, recs !! i = Some rec ->
     NameserverRecord.ID rec = Z.of_nat i
     \/ NameserverRecord.ID rec = (-1)%Z) ->
  rec ∈ List.filter undeleted (take n recs)
      ++ List.filter undeleted (drop (S n) recs) ->
  NameserverRecord.ID rec <> Z.of_nat n.
Proof.
  intros Hslots Hin. apply elem_of_app in Hin as [Hin | Hin];
    apply list_elem_of_In, filter_In in Hin as [Hin Hun];
    apply list_elem_of_In, list_elem_of_lookup in Hin as [i Hi].
  - apply lookup_take_Some in Hi as [Hi Hlt].
    rewrite (undeleted_slot recs i rec Hslots Hi Hun). lia.
  - rewrite lookup_drop in Hi.
    rewrite (undeleted_slot recs _ rec Hslots Hi Hun). lia.
Qed.

Lemma filter_slot (recs : list NameserverRecord) (n : nat) old new :
  recs !! n = Some old ->
  List.filter undeleted recs
  = List.filter undeleted (take n recs)
    ++ (if undeleted old then [old] else [])
    ++ List.filter undeleted (drop (S n) recs)
  /\ List.filter undeleted (<[n := new]> recs)
     = List.filter undeleted (take n recs)
       ++ (if undeleted new then [new] else [])
       ++ List.filter undeleted (drop (S n) recs).
Proof.
  intros Hn. split.
  - rewrite <- (take_drop_middle recs n old Hn) at 1.
    rewrite List.filter_app. simpl. now destruct (undeleted old).
  - rewrite insert_take_drop by (now apply lookup_lt_Some in Hn).
    rewrite List.filter_app. simpl. now destruct (undeleted new).
Qed.

(** X9: a successful update replaces, in the listing of the zone of the
    request, the one record with the given identifier by the record of the
    request under the same identifier, and leaves every other listed record
    and the order as they were. *)
Theorem mock_updateRecord_listed (recID : Z) (r : NameserverRecordRequest)
    (w : MockClientWrapper.t) :
  mock_wf w ->
  (MockClientWrapper.updateRecord recID r w).1 = None ->
  let new :=
    NameserverRecord.mk recID (NameserverRecordRequest.Name r)
      (NameserverRecordRequest.Type_ r) (NameserverRecordRequest.Content r)
      (NameserverRecordRequest.TTL r) (NameserverRecordRequest.Priority r) in
  exists before,
    mock_listing (NameserverRecordRequest.Domain r) w = inr before
    /\ recID ∈ map NameserverRecord.ID before
    /\ mock_listing (NameserverRecordRequest.Domain r)
         (MockClientWrapper.updateRecord recID r w).2
       = inr (map (fun rec =>
                     if (NameserverRecord.ID rec =? recID)%Z then new else rec)
                before).
Proof.
  intros [Hslots _]. unfold MockClientWrapper.updateRecord.
  rewrite !mock_listing_lookup.
  destruct (MockClientWrapper.db w !! NameserverRecordRequest.Domain r)
    as [recs|] eqn:Hz; simpl; [| discriminate].
  destruct (Z.leb_spec (Z.of_nat (length recs)) recID); simpl;
    [discriminate |].
  destruct (Z.ltb_spec recID 0); simpl; [discriminate |].
  destruct (recs !! Z.to_nat recID) as [old|] eqn:Hold; simpl;
    [| discriminate].
  destruct (NameserverRecord.ID old =? -1)%Z eqn:Hdel; simpl;
    [discriminate |].
  intros _. exists (List.filter undeleted recs).
  assert (forall i rec, recs !! i = Some rec ->
            NameserverRecord.ID rec = Z.of_nat i
            \/ NameserverRecord.ID rec = (-1)%Z) as Hs by eauto.
  assert (undeleted old = true) as Hun by (unfold undeleted; now rewrite Hdel).
  assert (NameserverRecord.ID old = recID) as Hid.
  { rewrite (undeleted_slot recs _ old Hs Hold Hun). lia. }
  split; [reflexivity |]. split.
  - apply list_elem_of_fmap. exists old. split; [now symmetry |].
    apply list_elem_of_In, filter_In. split; [| assumption].
    apply list_elem_of_In, list_elem_of_lookup. eauto.
  - simpl. rewrite lookup_insert_eq. f_equal.
    set (new := NameserverRecord.mk recID _ _ _ _ _).
    destruct (filter_slot recs (Z.to_nat recID) old new Hold) as [-> ->].
    rewrite Hun.
    replace (undeleted new) with true
      by (unfold undeleted, new; simpl; symmetry;
          apply negb_true_iff, Z.eqb_neq; lia).
    rewrite !List.map_app. simpl. rewrite Hid, Z.eqb_refl.
    assert (forall l,
              (forall rec, rec ∈ l -> NameserverRecord.ID rec <> recID) ->
              map (fun rec =>
                     if (NameserverRecord.ID rec =? recID)%Z then new else rec)
                l = l) as Hkeep.
    { intros l Hl. apply map_id_on. intros rec Hrec.
      apply Hl, Z.eqb_neq in Hrec. now rewrite Hrec. }
    rewrite !Hkeep; [reflexivity | |];
      intros rec Hrec; replace recID with (Z.of_nat (Z.to_nat recID)) by lia;
      apply (slots_around recs (Z.to_nat recID) rec Hs); set_solver.
Qed.

Lemma mock_updateRecord_listed_witness :
  mock_wf example_mock
  /\ (MockClientWrapper.updateRecord 1
        (NameserverRecordRequest.mk "example.com" "b" "A" "2.2.2.9" 60 0)
        example_mock).1 = None
  /\ exists before,
       mock_listing "example.com" example_mock = inr before
       /\ 1%Z ∈ map NameserverRecord.ID before
       /\ mock_listing "example.com"
            (MockClientWrapper.updateRecord 1
               (NameserverRecordRequest.mk "example.com" "b" "A" "2.2.2.9"
                  60 0)
               example_mock).2
          = inr (map (fun rec =>
                        if (NameserverRecord.ID rec =? 1)%Z
                        then NameserverRecord.mk 1 "b" "A" "2.2.2.9" 60 0
                        else rec)
                   before).
Proof.
  assert (mock_wf example_mock) as Hwf by exact example_mock_wf.
  assert ((MockClientWrapper.updateRecord 1
             (NameserverRecordRequest.mk "example.com" "b" "A" "2.2.2.9" 60 0)
             example_mock).1 = None) as Hok by reflexivity.
  split; [exact Hwf |]. split; [exact Hok |].
  exact (mock_updateRecord_listed 1
           (NameserverRecordRequest.mk "example.com" "b" "A" "2.2.2.9" 60 0)
           example_mock Hwf Hok).
Defined.

(** X10: a successful deletion removes, from the listing of the zone the
    identifier belongs to, the one record with that identifier and nothing
    else; deleting the same identifier again fails and changes nothing. *)
Theorem mock_deleteRecord_listed (recID : Z) (w : MockClientWrapper.t) :
  mock_wf w ->
  (MockClientWrapper.deleteRecord recID w).1 = None ->
  let w' := (MockClientWrapper.deleteRecord recID w).2 in
  exists zone before,
    MockClientWrapper.idToZone w !! recID = Some zone
    /\ mock_listing zone w = inr before
    /\ recID ∈ map NameserverRecord.ID before
    /\ mock_listing zone w'
       = inr (List.filter
                (fun rec => negb (NameserverRecord.ID rec =? recID)%Z) before)
    /\ (MockClientWrapper.deleteRecord recID w').1 <> None
    /\ (MockClientWrapper.deleteRecord recID w').2 = w'.
Proof.
  intros [Hslots _]. unfold MockClientWrapper.deleteRecord at 1 2.
  destruct (MockClientWrapper.idToZone w !! recID) as [zone|] eqn:Hzone;
    simpl; [| discriminate].
  destruct (MockClientWrapper.db w !! zone) as [recs|] eqn:Hz; simpl;
    [| discriminate].
  destruct (Z.leb_spec (Z.of_nat (length recs)) recID) as [? | Hlt]; simpl;
    [discriminate |].
  destruct (Z.ltb_spec recID 0) as [? | Hge]; simpl; [discriminate |].
  destruct (recs !! Z.to_nat recID) as [old|] eqn:Hold; simpl;
    [| discriminate].
  destruct (NameserverRecord.ID old =? -1)%Z eqn:Hdel; simpl;
    [discriminate |].
  intros _. exists zone, (List.filter undeleted recs).
  assert (forall i rec, recs !! i = Some rec ->
            NameserverRecord.ID rec = Z.of_nat i
            \/ NameserverRecord.ID rec = (-1)%Z) as Hs by eauto.
  assert (undeleted old = true) as Hun by (unfold undeleted; now rewrite Hdel).
  assert (NameserverRecord.ID old = recID) as Hid.
  { rewrite (undeleted_slot recs _ old Hs Hold Hun). lia. }
  split; [reflexivity |]. split; [now rewrite mock_listing_lookup, Hz |].
  split; [| split; [| split]].
  - apply list_elem_of_fmap. exists old. split; [now symmetry |].
    apply list_elem_of_In, filter_In. split; [| assumption].
    apply list_elem_of_In, list_elem_of_lookup. eauto.
  - rewrite mock_listing_lookup. simpl. rewrite lookup_insert_eq. f_equal.
    set (gone := NameserverRecord.mk (-1) _ _ _ _ _).
    destruct (filter_slot recs (Z.to_nat recID) old gone Hold) as [-> ->].
    rewrite Hun. change (undeleted gone) with false.
    rewrite !List.filter_app. simpl. rewrite Hid, Z.eqb_refl. simpl.
    f_equal; symmetry; apply filter_id_on;
      intros rec Hrec; apply negb_true_iff, Z.eqb_neq;
      replace recID with (Z.of_nat (Z.to_nat recID)) by lia;
      apply (slots_around recs (Z.to_nat recID) rec Hs); set_solver.
  - unfold MockClientWrapper.deleteRecord. simpl.
    rewrite Hzone, lookup_insert_eq, length_insert.
    destruct (Z.leb_spec (Z.of_nat (length recs)) recID); [lia |].
    destruct (Z.ltb_spec recID 0); [lia |].
    rewrite list_lookup_insert_eq by (now apply lookup_lt_Some in Hold).
    simpl. discriminate.
  - unfold MockClientWrapper.deleteRecord. simpl.
    rewrite Hzone, lookup_insert_eq, length_insert.
    destruct (Z.leb_spec (Z.of_nat (length recs)) recID); [lia |].
    destruct (Z.ltb_spec recID 0); [lia |].
    rewrite list_lookup_insert_eq by (now apply lookup_lt_Some in Hold).
    reflexivity.
Qed.

Lemma mock_deleteRecord_listed_witness :
  mock_wf example_mock
  /\ (MockClientWrapper.deleteRecord 0 example_mock).1 = None
  /\ exists zone before,
       MockClientWrapper.idToZone example_mock !! 0%Z = Some zone
       /\ mock_listing zone example_mock = inr before
       /\ 0%Z ∈ map NameserverRecord.ID before
       /\ mock_listing zone (MockClientWrapper.deleteRecord 0 example_mock).2
          = inr (List.filter
                   (fun rec => negb (NameserverRecord.ID rec =? 0)%Z) before)
       /\ (MockClientWrapper.deleteRecord 0
             (MockClientWrapper.deleteRecord 0 example_mock).2).1 <> None
       /\ (MockClientWrapper.deleteRecord 0
             (MockClientWrapper.deleteRecord 0 example_mock).2).2
          = (MockClientWrapper.deleteRecord 0 example_mock).2.
Proof.
  assert (mock_wf example_mock) as Hwf by exact example_mock_wf.
  assert ((MockClientWrapper.deleteRecord 0 example_mock).1 = None) as Hok
    by reflexivity.
  split; [exact Hwf |]. split; [exact Hok |].
  exact (mock_deleteRecord_listed 0 example_mock Hwf Hok).
Defined.

(** X11: a record is created exactly when the zone of the request exists,
    and a creation, update or deletion that returns an error leaves the mock
    as it was. *)
Theorem mock_failure_changes_nothing (w : MockClientWrapper.t) :
  (forall r,
     ((MockClientWrapper.createRecord r w).1 = None
      <-> is_Some (MockClientWrapper.db w !! NameserverRecordRequest.Domain r))
     /\ ((MockClientWrapper.createRecord r w).1 <> None ->
         (MockClientWrapper.createRecord r w).2 = w))
  /\ (forall recID r,
        (MockClientWrapper.updateRecord recID r w).1 <> None ->
        (MockClientWrapper.updateRecord recID r w).2 = w)
  /\ (forall recID,
        (MockClientWrapper.deleteRecord recID w).1 <> None ->
        (MockClientWrapper.deleteRecord recID w).2 = w).
Proof.
  split; [| split].
  - intros r. unfold MockClientWrapper.createRecord.
    destruct (MockClientWrapper.db w !! NameserverRecordRequest.Domain r);
      simpl; split.
    + split; [eauto | reflexivity].
    + intros Hne. now contradiction Hne.
    + split; [discriminate | intros [? [=]]].
    + reflexivity.
  - intros recID r. unfold MockClientWrapper.updateRecord.
    destruct (MockClientWrapper.db w !! NameserverRecordRequest.Domain r)
      as [recs|]; simpl; [| reflexivity].
    destruct (Z.of_nat (length recs) <=? recID)%Z; simpl; [reflexivity |].
    destruct (recID <? 0)%Z; simpl; [reflexivity |].
    destruct (recs !! Z.to_nat recID) as [old|]; simpl; [| reflexivity].
    destruct (NameserverRecord.ID old =? -1)%Z; simpl; [reflexivity |].
    intros Hne. now contradiction Hne.
  - intros recID. unfold MockClientWrapper.deleteRecord.
    destruct (MockClientWrapper.idToZone w !! recID) as [zone|]; simpl;
      [| reflexivity].
    destruct (MockClientWrapper.db w !! zone) as [recs|]; simpl;
      [| reflexivity].
    destruct (Z.of_nat (length recs) <=? recID)%Z; simpl; [reflexivity |].
    destruct (recID <? 0)%Z; simpl; [reflexivity |].
    destruct (recs !! Z.to_nat recID) as [old|]; simpl; [| reflexivity].
    destruct (NameserverRecord.ID old =? -1)%Z; simpl; [reflexivity |].
    intros Hne. now contradiction Hne.
Qed.

(** X12: the mock lists every zone of its database exactly once, and the
    zones it lists are exactly those whose records it can return: a zone
    that resolves against this list never fails the record fetch. *)
Theorem mock_getZones_fetchable (w : MockClientWrapper.t) :
  exists zones,
    MockClientWrapper.getZones w = (inr zones, w)
    /\ NoDup zones
    /\ forall zone,
         zone ∈ zones
         <-> exists records,
               MockClientWrapper.getRecords zone w = (inr records, w).
Proof.
  exists (map fst (map_to_list (MockClientWrapper.db w))).
  split; [reflexivity |]. split; [apply NoDup_fst_map_to_list |].
  intros zone. unfold MockClientWrapper.getRecords.
  change (map fst (map_to_list (MockClientWrapper.db w)))
    with ((map_to_list (MockClientWrapper.db w)).*1).
  rewrite list_elem_of_fmap. split.
  - intros ([zone' recs] & -> & Hin). apply elem_of_map_to_list in Hin.
    simpl. rewrite Hin. eauto.
  - intros [records Hget].
    destruct (MockClientWrapper.db w !! zone) as [recs|] eqn:Hz;
      [| discriminate].
    exists (zone, recs). split; [reflexivity |].
    now apply elem_of_map_to_list.
Qed.

(** ** The delete phase, endpoint by endpoint *)

Lemma mutations_changes (recIDs : list Z) (t : list Event) :
  map fst t = map DeleteRecord recIDs -> mutations t = map DeleteRecord recIDs.
Proof.
  intros Hsteps. rewrite <- Hsteps. apply changes_only_mutations.
  eapply changes_only_map; [| exact Hsteps]. reflexivity.
Qed.

(** X13: for an endpoint to delete whose zone resolves and whose records are
    cached or fetched without error, the delete phase returns and calls
    [deleteRecord] once for every located identifier, in order, and not at
    all when the locator fails; the error of the locator and of every failed
    deletion is appended to [errs], and the records are in the cache
    afterwards. *)
Theorem deleteEndpoint_deletes_located {W} {wrapper : AbstractClientWrapper W}
    zones ep zone records (st : Store W) :
  getZone zones ep = (zone, None) ->
  (recordsCache st !! zone = Some records
   \/ recordsCache st !! zone = None
      /\ (getRecords zone (client st)).1 = inr records) ->
  let run := deleteEndpoint zones ep st in
  outcome run = Val tt
  /\ match getRecIDs zone records ep with
     | (recIDs, None) => mutations (steps run) = map DeleteRecord recIDs
     | (_, Some e) => mutations (steps run) = [] /\ e ∈ failures (steps run)
     end
  /\ errs (final run) = errs st ++ failures (steps run)
  /\ recordsCache (final run) !! zone = Some records.
Proof.
  intros Hzone Hrecords.
  enough (wp (deleteEndpoint zones ep)
            (fun r st' t =>
               r = Val tt
               /\ match getRecIDs zone records ep with
                  | (recIDs, None) => mutations t = map DeleteRecord recIDs
                  | (_, Some e) => mutations t = [] /\ e ∈ failures t
                  end
               /\ errs st' = errs st ++ failures t
               /\ recordsCache st' !! zone = Some records) st) as Hrun
    by exact Hrun.
  unfold deleteEndpoint. rewrite Hzone.
  destruct Hrecords as [Hc | [Hc Hfetch]].
  - wp_go; try congruence. simplify_eq.
    match goal with H : getRecIDs _ _ _ = _ |- _ => rewrite H end.
    eapply wp_conseq; [now apply change_loop |].
    intros r st2 t2 (-> & Hsteps & He & Hcache). cbn [errs recordsCache] in *.
    apply mutations_changes in Hsteps as Hmut.
    split; [reflexivity |]. split; [| split].
    + destruct o as [e|]; simpl; [| exact Hmut].
      match goal with
      | H : getRecIDs _ _ _ = _ |- _ =>
          apply getRecIDs_unlocated in H as (-> & _ & _)
      end.
      split; [exact Hmut | apply list_elem_of_here].
    + rewrite He. simpl. rewrite <- app_assoc. now destruct o.
    + now rewrite Hcache.
  - wp_go; try congruence;
      match goal with
      | H : getRecords _ _ = _ |- _ => rewrite H in Hfetch; simpl in Hfetch
      end; try discriminate.
    + rewrite lookup_insert_eq in *. simplify_eq.
      match goal with H : getRecIDs _ _ _ = _ |- _ => rewrite H end.
      eapply wp_conseq; [now apply change_loop |].
      intros r st2 t2 (-> & Hsteps & He & Hcache).
      cbn [errs recordsCache] in *.
      apply mutations_changes in Hsteps as Hmut.
      split; [reflexivity |]. split; [| split].
      * destruct o as [e|]; simpl; [| exact Hmut].
        match goal with
        | H : getRecIDs _ _ _ = _ |- _ =>
            apply getRecIDs_unlocated in H as (-> & _ & _)
        end.
        split; [exact Hmut | apply list_elem_of_here].
      * rewrite He. simpl. rewrite <- app_assoc. now destruct o.
      * rewrite Hcache. apply lookup_insert_eq.
    + now rewrite lookup_insert_eq in *.
Qed.

Lemma deleteEndpoint_deletes_located_witness :
  getZone ["example.com"] b_endpoint = ("example.com", None)
  /\ (getRecords "example.com" example_mock).1 = inr example_records
  /\ outcome (deleteEndpoint ["example.com"] b_endpoint (initial example_mock))
     = Val tt
  /\ mutations
       (steps (deleteEndpoint ["example.com"] b_endpoint
                 (initial example_mock)))
     = [DeleteRecord 1]
  /\ errs (final (deleteEndpoint ["example.com"] b_endpoint
                    (initial example_mock)))
     = [] ++ failures
               (steps (deleteEndpoint ["example.com"] b_endpoint
                         (initial example_mock)))
  /\ recordsCache
       (final (deleteEndpoint ["example.com"] b_endpoint
                 (initial example_mock))) !! "example.com"
     = Some example_records.
Proof.
  assert (getZone ["example.com"] b_endpoint = ("example.com", None))
    as Hzone by reflexivity.
  assert ((getRecords "example.com" example_mock).1 = inr example_records)
    as Hfetch by reflexivity.
  split; [exact Hzone |]. split; [exact Hfetch |].
  exact (deleteEndpoint_deletes_located ["example.com"] b_endpoint
           "example.com" example_records (initial example_mock) Hzone
           (or_intror (conj eq_refl Hfetch))).
Defined.

(** ** The listing path: session and fetches *)



(** ** The listing path on the mock *)




(** ** The update phase: the two lists of an update *)

Lemma zip_seq_index {A} (l : list A) (done rest : list (nat * A)) i x :
  zip (seq 0 (length l)) l = done ++ (i, x) :: rest -> i = length done.
Proof.
  intros Hl.
  assert (zip (seq 0 (length l)) l !! length done = Some (i, x)) as Hi
    by (rewrite Hl; apply list_lookup_middle; reflexivity).
  apply (f_equal (fmap fst)) in Hi. rewrite <- list_lookup_fmap in Hi.
  rewrite fst_zip in Hi by (rewrite length_seq; lia).
  simpl in Hi. apply lookup_seq in Hi. lia.
Qed.

(** The update loop cannot get past the end of [UpdateNew]. *)
Lemma updatePhase_short_UpdateNew {W} {wrapper : AbstractClientWrapper W}
    zones changes (st : Store W) :
  length (Changes.UpdateNew changes) < length (Changes.UpdateOld changes) ->
  wp (updatePhase zones changes) (fun r _ _ => r = Panic) st.
Proof.
  intros Hshort. unfold updatePhase. rewrite forEachFrom_forEach.
  eapply wp_conseq.
  - apply (wp_forEach _ _
             (fun done _ _ => length done <= length (Changes.UpdateNew changes))
             (fun _ _ => True)).
    + simpl. lia.
    + intros done [i oldEp] rest st1 t1 Hl Hdone.
      apply zip_seq_index in Hl. subst i. simpl.
      destruct (Changes.UpdateNew changes !! length done) as [newEp|] eqn:Hnew.
      * apply lookup_lt_Some in Hnew. unfold wp.
        destruct (outcome _); [| exact I]. rewrite length_app. simpl. lia.
      * unfold updateEndpoint. rewrite Hnew. now apply wp_panic.
  - intros [[]|] st' t; simpl; [| reflexivity].
    rewrite length_zip, length_seq. lia.
Qed.

(** X16: [ApplyChanges] reads [UpdateNew[i]] for every index of [UpdateOld].
    When [UpdateNew] is the shorter list and the login and the zone listing
    succeed, the call panics (index out of range), after the deletions and
    the creations have been made; no error is returned. *)
Theorem ApplyChanges_short_UpdateNew_panics {W}
    {wrapper : AbstractClientWrapper W} changes (st : Store W) w1 zones w2 :
  length (Changes.UpdateNew changes) < length (Changes.UpdateOld changes) ->
  login (client st) = (None, w1) ->
  getZones w1 = (inr zones, w2) ->
  outcome (ApplyChanges changes st) = Panic
  /\ Changes.Delete changes ++ Changes.Create changes
     `prefix_of` resolved (steps (ApplyChanges changes st)).
Proof.
  intros Hshort Hlogin Hzones.
  assert (HasChanges changes = true) as Hchanges.
  { unfold HasChanges. rewrite bool_decide_eq_false_2; [apply orb_true_r |].
    intros Heq. rewrite Heq in Hshort. lia. }
  enough (wp (ApplyChanges changes)
            (fun r _ t =>
               r = Panic
               /\ Changes.Delete changes ++ Changes.Create changes
                  `prefix_of` resolved t) st) as Hrun by exact Hrun.
  unfold ApplyChanges. rewrite Hchanges.
  cbn [negb]. apply wp_bind, wp_call. intros err w Hl.
  rewrite Hlogin in Hl. injection Hl as <- <-.
  apply wp_deferLogout, wp_bind, wp_callv. intros r w Hz.
  cbn [client] in Hz. rewrite Hzones in Hz. injection Hz as <- <-.
  wp_go.
  eapply wp_conseq; [apply deletePhase_spec |].
  intros ? std td (-> & _ & Hrd). wp_go.
  eapply wp_conseq; [apply createPhase_spec |].
  intros ? stc tc (-> & _ & Hrc). wp_go.
  eapply wp_conseq; [now apply updatePhase_short_UpdateNew |].
  intros ru stu tu ->. intros lo w' _. split; [reflexivity |].
  simpl. rewrite !resolved_app, Hrd, Hrc. simpl.
  rewrite <- !app_assoc, ?app_nil_r.
  rewrite (app_assoc (Changes.Delete changes)). eexists. reflexivity.
Qed.

Lemma ApplyChanges_short_UpdateNew_panics_witness :
  length (Changes.UpdateNew short_update_changes)
  < length (Changes.UpdateOld short_update_changes)
  /\ login (client (initial example_mock)) = (None, example_mock)
  /\ getZones example_mock = (inr ["example.com"], example_mock)
  /\ outcome (ApplyChanges short_update_changes (initial example_mock)) = Panic
  /\ Changes.Delete short_update_changes ++ Changes.Create short_update_changes
     `prefix_of`
     resolved (steps (ApplyChanges short_update_changes (initial example_mock))).
Proof.
  assert (length (Changes.UpdateNew short_update_changes)
          < length (Changes.UpdateOld short_update_changes)) as Hshort
    by (simpl; lia).
  assert (login (client (initial example_mock)) = (None, example_mock))
    as Hlogin by reflexivity.
  assert (getZones example_mock = (inr ["example.com"], example_mock))
    as Hzones by reflexivity.
  split; [exact Hshort |]. split; [exact Hlogin |]. split; [exact Hzones |].
  exact (ApplyChanges_short_UpdateNew_panics short_update_changes
           (initial example_mock) example_mock ["example.com"] example_mock
           Hshort Hlogin Hzones).
Defined.

(** ** Endpoints outside every zone *)







(** ** Change sets without updates *)

(** X18: a change set without updates never makes [ApplyChanges] panic:
    whatever the client answers, the call returns (nil or an error).  The
    delete loop ranges over the located identifiers and the create loop over
    the targets; only the update loop indexes a slice. *)
Theorem ApplyChanges_without_updates_returns {W}
    {wrapper : AbstractClientWrapper W} changes (st : Store W) :
  Changes.UpdateOld changes = [] ->
  exists res, outcome (ApplyChanges changes st) = Val res.
Proof.
  intros Hold.
  enough (wp (ApplyChanges changes) (fun r _ _ => exists res, r = Val res) st)
    as Hrun by exact Hrun.
  unfold ApplyChanges.
  destruct (HasChanges changes); cbn [negb]; [| apply wp_ret; eauto].
  apply wp_bind, wp_call. intros [e|] w _; [apply wp_ret; eauto |].
  apply wp_deferLogout, wp_bind, wp_callv.
  intros [e|zones] w' _; [apply wp_ret; intros; eauto |].
  wp_go.
  eapply wp_conseq; [apply deletePhase_spec |].
  intros ? std td (-> & _ & _). wp_go.
  eapply wp_conseq; [apply createPhase_spec |].
  intros ? stc tc (-> & _ & _). wp_go.
  unfold updatePhase. rewrite Hold. simpl. wp_go; intros; eauto.
Qed.

Lemma ApplyChanges_without_updates_returns_witness :
  Changes.UpdateOld two_deletes = []
  /\ exists res,
       outcome (ApplyChanges two_deletes (initial no_records_client)) = Val res.
Proof.
  split; [reflexivity |].
  exact (ApplyChanges_without_updates_returns two_deletes
           (initial no_records_client) eq_refl).
Defined.

(** ** The mock: identifiers are per zone *)

(** X19: the mock numbers the records of each zone from 0, and [idToZone]
    remembers for an identifier the zone that used it last.  When a record
    is created in one zone and then one in another zone with as many slots,
    both get the same identifier; deleting that identifier removes the
    record created last, the record of the first zone stays listed, and a
    second deletion of the identifier fails: the first record cannot be
    deleted any more. *)
Theorem mock_identifier_shared_between_zones (r1 r2 : NameserverRecordRequest)
    (w : MockClientWrapper.t) (recs1 recs2 : list NameserverRecord) :
  NameserverRecordRequest.Domain r1 <> NameserverRecordRequest.Domain r2 ->
  MockClientWrapper.db w !! NameserverRecordRequest.Domain r1 = Some recs1 ->
  MockClientWrapper.db w !! NameserverRecordRequest.Domain r2 = Some recs2 ->
  length recs1 = length recs2 ->
  let id := Z.of_nat (length recs1) in
  let created :=
    (MockClientWrapper.createRecord r2
       (MockClientWrapper.createRecord r1 w).2).2 in
  let deleted := (MockClientWrapper.deleteRecord id created).2 in
  (MockClientWrapper.deleteRecord id created).1 = None
  /\ mock_listing (NameserverRecordRequest.Domain r2) deleted
     = mock_listing (NameserverRecordRequest.Domain r2) w
  /\ mock_listing (NameserverRecordRequest.Domain r1) deleted
     = inr (List.filter undeleted recs1
            ++ [NameserverRecord.mk id (NameserverRecordRequest.Name r1)
                  (NameserverRecordRequest.Type_ r1)
                  (NameserverRecordRequest.Content r1)
                  (NameserverRecordRequest.TTL r1)
                  (NameserverRecordRequest.Priority r1)])
  /\ (MockClientWrapper.deleteRecord id deleted).1 <> None
  /\ (MockClientWrapper.deleteRecord id deleted).2 = deleted.
Proof.
  intros Hne Hz1 Hz2 Hlen id created deleted.
  set (D1 := NameserverRecordRequest.Domain r1) in *.
  set (D2 := NameserverRecordRequest.Domain r2) in *.
  set (new1 := NameserverRecord.mk id (NameserverRecordRequest.Name r1)
                 (NameserverRecordRequest.Type_ r1)
                 (NameserverRecordRequest.Content r1)
                 (NameserverRecordRequest.TTL r1)
                 (NameserverRecordRequest.Priority r1)).
  set (new2 := NameserverRecord.mk id (NameserverRecordRequest.Name r2)
                 (NameserverRecordRequest.Type_ r2)
                 (NameserverRecordRequest.Content r2)
                 (NameserverRecordRequest.TTL r2)
                 (NameserverRecordRequest.Priority r2)).
  set (gone2 := NameserverRecord.mk (-1) (NameserverRecordRequest.Name r2)
                  (NameserverRecordRequest.Type_ r2)
                  (NameserverRecordRequest.Content r2)
                  (NameserverRecordRequest.TTL r2)
                  (NameserverRecordRequest.Priority r2)).
  set (db1 := <[D1 := recs1 ++ [new1]]> (MockClientWrapper.db w)).
  set (ids := <[id := D2]> (<[id := D1]> (MockClientWrapper.idToZone w))).
  assert (created = MockClientWrapper.mk (<[D2 := recs2 ++ [new2]]> db1) ids)
    as Hcreated.
  { subst created. unfold MockClientWrapper.createRecord at 2.
    fold D1. rewrite Hz1. simpl. unfold MockClientWrapper.createRecord.
    simpl. fold D2. fold db1. unfold db1 at 1.
    rewrite lookup_insert_ne, Hz2 by exact Hne. simpl. rewrite <- Hlen.
    reflexivity. }
  assert ((id <? 0)%Z = false) as Hpos by (apply Z.ltb_ge; lia).
  assert ((id =? -1)%Z = false) as Hlive by (apply Z.eqb_neq; lia).
  assert (forall rec,
            (Z.of_nat (length (recs2 ++ [rec])) <=? id)%Z = false
            /\ (recs2 ++ [rec]) !! Z.to_nat id = Some rec
            /\ <[Z.to_nat id := gone2]> (recs2 ++ [rec]) = recs2 ++ [gone2])
    as Hslot.
  { intros rec. subst id. rewrite Nat2Z.id, Hlen. split; [| split].
    - apply Z.leb_gt. rewrite length_app. simpl. lia.
    - now apply list_lookup_middle.
    - rewrite insert_app_r_alt by reflexivity. now rewrite Nat.sub_diag. }
  assert (MockClientWrapper.deleteRecord id created
          = (None, MockClientWrapper.mk (<[D2 := recs2 ++ [gone2]]> db1) ids))
    as Hdeleted.
  { rewrite Hcreated. unfold MockClientWrapper.deleteRecord. simpl.
    unfold ids at 1. rewrite !lookup_insert_eq.
    destruct (Hslot new2) as (-> & -> & Hgone). rewrite Hpos. simpl.
    rewrite Hlive. simpl. fold gone2. rewrite Hgone.
    now rewrite insert_insert_eq. }
  subst deleted. rewrite Hdeleted. simpl.
  split; [reflexivity |]. split; [| split].
  - rewrite !mock_listing_lookup. simpl. rewrite lookup_insert_eq, Hz2.
    rewrite List.filter_app. simpl. now rewrite app_nil_r.
  - rewrite !mock_listing_lookup. simpl.
    rewrite lookup_insert_ne by (intros Heq; now apply Hne).
    unfold db1. rewrite lookup_insert_eq.
    rewrite List.filter_app. simpl. unfold undeleted at 2. simpl.
    now rewrite Hlive.
  - assert (MockClientWrapper.deleteRecord id
              (MockClientWrapper.mk (<[D2 := recs2 ++ [gone2]]> db1) ids)
            = (Some (ErrClient "record ID has already been deleted"),
               MockClientWrapper.mk (<[D2 := recs2 ++ [gone2]]> db1) ids))
      as Hagain.
    { unfold MockClientWrapper.deleteRecord. simpl.
      unfold ids at 1. rewrite !lookup_insert_eq.
      destruct (Hslot gone2) as (-> & -> & _). now rewrite Hpos. }
    rewrite Hagain. split; [discriminate | reflexivity].
Qed.

Lemma mock_identifier_shared_between_zones_witness :
  NameserverRecordRequest.Domain first_request
  <> NameserverRecordRequest.Domain second_request
  /\ MockClientWrapper.db two_zone_mock
       !! NameserverRecordRequest.Domain first_request = Some []
  /\ MockClientWrapper.db two_zone_mock
       !! NameserverRecordRequest.Domain second_request = Some []
  /\ length (@nil NameserverRecord) = length (@nil NameserverRecord)
  /\ (MockClientWrapper.deleteRecord 0 two_zone_created).1 = None
  /\ mock_listing "example.org" two_zone_deleted
     = mock_listing "example.org" two_zone_mock
  /\ mock_listing "example.com" two_zone_deleted
     = inr [NameserverRecord.mk 0 "a" "A" "1.1.1.1" 300 0]
  /\ (MockClientWrapper.deleteRecord 0 two_zone_deleted).1 <> None
  /\ (MockClientWrapper.deleteRecord 0 two_zone_deleted).2 = two_zone_deleted.
Proof.
  assert (NameserverRecordRequest.Domain first_request
          <> NameserverRecordRequest.Domain second_request) as Hne
    by (simpl; discriminate).
  assert (MockClientWrapper.db two_zone_mock
            !! NameserverRecordRequest.Domain first_request = Some [])
    as Hz1 by reflexivity.
  assert (MockClientWrapper.db two_zone_mock
            !! NameserverRecordRequest.Domain second_request = Some [])
    as Hz2 by reflexivity.
  split; [exact Hne |]. split; [exact Hz1 |]. split; [exact Hz2 |].
  split; [reflexivity |].
  exact (mock_identifier_shared_between_zones first_request second_request
           two_zone_mock [] [] Hne Hz1 Hz2 eq_refl).
Defined.

(** ** The create phase on the mock *)

(** The loop over the targets of an endpoint, run on the mock: every
    creation succeeds and the records are appended to the zone, numbered from
    the number of its slots. *)
Lemma create_loop_mock (zone name type : string) (ttl : Z)
    (targets : list string) :
  forall (w : MockClientWrapper.t) (recs : list NameserverRecord) es cache,
    MockClientWrapper.db w !! zone = Some recs ->
    wp (forEach targets
          (fun target =>
             err <- call
                      (CreateRecord
                         (NameserverRecordRequest.mk zone name type target
                            ttl 0))
                      (createRecord
                         (NameserverRecordRequest.mk zone name type target
                            ttl 0)) ;;
             recordErr err))
       (fun r st' t =>
          r = Val tt /\ failures t = [] /\ errs st' = es
          /\ MockClientWrapper.db (client st') !! zone
             = Some (recs
                     ++ zip_with
                          (fun id target =>
                             NameserverRecord.mk id name type target ttl 0)
                          (map Z.of_nat (seq (length recs) (length targets)))
                          targets)
          /\ forall zone', zone' <> zone ->
               MockClientWrapper.db (client st') !! zone'
               = MockClientWrapper.db w !! zone')
       (mkStore w es cache).
Proof.
  induction targets as [|target targets IH]; intros w recs es cache Hz; simpl.
  - apply wp_ret. rewrite app_nil_r. repeat split. exact Hz.
  - apply wp_bind, wp_bind, wp_call. intros err w1 Hcreate.
    cbn in Hcreate. unfold MockClientWrapper.createRecord in Hcreate.
    cbn in Hcreate. rewrite Hz in Hcreate. injection Hcreate as <- <-.
    apply wp_recordErr. cbn. rewrite app_nil_r.
    eapply wp_conseq; [apply IH; apply lookup_insert_eq |].
    intros r st' t (-> & Hfail & Herrs & Hz' & Hother). cbn.
    split; [reflexivity |]. split; [exact Hfail |]. split; [exact Herrs |].
    split.
    + rewrite Hz', <- app_assoc. simpl.
      rewrite length_app, Nat.add_1_r. reflexivity.
    + intros zone' Hne. rewrite Hother by exact Hne.
      apply lookup_insert_ne. congruence.
Qed.

(** X20: on the mock, the creation of an endpoint whose zone resolves to a
    zone of the mock fails for no target; the zone then lists what it listed
    before, followed by one record per target, in target order, numbered
    from the number of slots of the zone, and the other zones list what they
    listed before. *)
Theorem createEndpoint_then_listed zones ep zone
    (w : MockClientWrapper.t) (recs : list NameserverRecord) es cache :
  getZone zones ep = (zone, None) ->
  MockClientWrapper.db w !! zone = Some recs ->
  let run := createEndpoint zones ep (mkStore w es cache) in
  outcome run = Val tt
  /\ failures (steps run) = []
  /\ errs (final run) = es
  /\ mock_listing zone (client (final run))
     = inr (List.filter undeleted recs
            ++ created_records zone ep
                 (map Z.of_nat
                    (seq (length recs) (length (Endpoint.Targets ep)))))
  /\ forall zone', zone' <> zone ->
       mock_listing zone' (client (final run)) = mock_listing zone' w.
Proof.
  intros Hzone Hz.
  enough (wp (createEndpoint zones ep)
            (fun r st' t =>
               r = Val tt /\ failures t = [] /\ errs st' = es
               /\ mock_listing zone (client st')
                  = inr (List.filter undeleted recs
                         ++ created_records zone ep
                              (map Z.of_nat
                                 (seq (length recs)
                                    (length (Endpoint.Targets ep)))))
               /\ forall zone', zone' <> zone ->
                    mock_listing zone' (client st') = mock_listing zone' w)
            (mkStore w es cache)) as Hrun by exact Hrun.
  unfold createEndpoint. rewrite Hzone. wp_go.
  eapply wp_conseq; [apply create_loop_mock; exact Hz |].
  intros r st' t (-> & Hfail & Herrs & Hz' & Hother). cbn.
  repeat (split; [assumption || reflexivity |]). split.
  - rewrite mock_listing_lookup, Hz', List.filter_app. do 2 f_equal.
    unfold created_records. apply filter_id_on.
    intros rec Hin.
    apply elem_of_zip_with in Hin as (id & target & -> & Hid & _).
    apply list_elem_of_fmap in Hid as (k & -> & _).
    unfold undeleted. simpl. apply negb_true_iff, Z.eqb_neq. lia.
  - intros zone' Hne. rewrite !mock_listing_lookup. now rewrite Hother.
Qed.

Lemma createEndpoint_then_listed_witness :
  getZone ["example.com"] www_endpoint = ("example.com", None)
  /\ MockClientWrapper.db b_mock !! "example.com"
     = Some [NameserverRecord.mk 0 "b" "A" "2.2.2.2" 300 0]
  /\ outcome (createEndpoint ["example.com"] www_endpoint (initial b_mock))
     = Val tt
  /\ failures
       (steps (createEndpoint ["example.com"] www_endpoint (initial b_mock)))
     = []
  /\ errs (final (createEndpoint ["example.com"] www_endpoint
                    (initial b_mock))) = []
  /\ mock_listing "example.com"
       (client (final (createEndpoint ["example.com"] www_endpoint
                         (initial b_mock))))
     = inr [NameserverRecord.mk 0 "b" "A" "2.2.2.2" 300 0;
            NameserverRecord.mk 1 "www" "A" "1.2.3.4" 300 0;
            NameserverRecord.mk 2 "www" "A" "5.6.7.8" 300 0]
  /\ forall zone', zone' <> "example.com" ->
       mock_listing zone'
         (client (final (createEndpoint ["example.com"] www_endpoint
                           (initial b_mock))))
       = mock_listing zone' b_mock.
Proof.
  assert (getZone ["example.com"] www_endpoint = ("example.com", None))
    as Hzone by reflexivity.
  assert (MockClientWrapper.db b_mock !! "example.com"
          = Some [NameserverRecord.mk 0 "b" "A" "2.2.2.2" 300 0])
    as Hz by reflexivity.
  split; [exact Hzone |]. split; [exact Hz |].
  exact (createEndpoint_then_listed ["example.com"] www_endpoint "example.com"
           b_mock [NameserverRecord.mk 0 "b" "A" "2.2.2.2" 300 0] [] ∅
           Hzone Hz).
Defined.

(** ** The locator finds what the create phase wrote *)

Lemma spec_matches_created zone ep id target target' :
  spec_fqdn zone (relativeName (Endpoint.DNSName ep) zone)
  = Endpoint.DNSName ep ->
  spec_matches zone ep target
    (NameserverRecord.mk id (relativeName (Endpoint.DNSName ep) zone)
       (Endpoint.RecordType ep) target' (Endpoint.RecordTTL ep) 0)
  = bool_decide (target' = target).
Proof.
  intros Hfq. unfold spec_matches. simpl.
  rewrite (bool_decide_eq_true_2 (Endpoint.RecordType ep = _)) by reflexivity.
  rewrite (bool_decide_eq_true_2 (spec_fqdn _ _ = _)) by exact Hfq.
  now rewrite andb_true_r.
Qed.

Lemma filter_nil_on {A} (Q : A -> bool) (l : list A) :
  (forall x, x ∈ l -> Q x = false) -> List.filter Q l = [].
Proof.
  induction l as [|x l IH]; intros HQ; simpl; [reflexivity |].
  rewrite HQ by set_solver. apply IH. intros y Hy. apply HQ. set_solver.
Qed.

Lemma flat_map_on {A B} (f g : A -> list B) (l : list A) :
  (forall x, x ∈ l -> f x = g x) -> flat_map f l = flat_map g l.
Proof.
  induction l as [|x l IH]; intros Hfg; simpl; [reflexivity |].
  rewrite Hfg by set_solver. f_equal. apply IH. intros y Hy. apply Hfg.
  set_solver.
Qed.

(** Among records with pairwise different contents, each content selects
    its own record. *)
Lemma located_one_by_one {A} (mk : Z -> string -> A) (ID : A -> Z)
    (matches : string -> A -> bool) (pairs : list (Z * string)) :
  (forall id target, ID (mk id target) = id) ->
  (forall id target target',
     matches target (mk id target') = bool_decide (target' = target)) ->
  NoDup (map snd pairs) ->
  flat_map
    (fun target =>
       map ID (List.filter (matches target)
                 (map (fun p : Z * string => mk p.1 p.2) pairs)))
    (map snd pairs)
  = map fst pairs.
Proof.
  intros HID Hmatch.
  induction pairs as [|[id target] pairs IH]; intros Hnodup; simpl;
    [reflexivity |].
  apply NoDup_cons in Hnodup as [Hfresh Hnodup].
  rewrite Hmatch, bool_decide_eq_true_2 by reflexivity. simpl.
  rewrite HID. f_equal.
  rewrite filter_nil_on; simpl.
  - rewrite <- (IH Hnodup). apply flat_map_on.
    intros target' Hin. rewrite Hmatch.
    rewrite bool_decide_eq_false_2; [reflexivity |].
    intros ->. now apply Hfresh.
  - intros rec Hin.
    apply list_elem_of_In, in_map_iff in Hin as ([id' target'] & <- & Hin).
    simpl. rewrite Hmatch. apply bool_decide_eq_false_2.
    intros ->. apply Hfresh.
    apply list_elem_of_In, in_map_iff. now exists (id', target).
Qed.

Lemma zip_with_map_zip {A B C} (f : A -> B -> C) (l : list A) (k : list B) :
  zip_with f l k = map (fun p : A * B => f p.1 p.2) (zip l k).
Proof.
  revert k. induction l as [|x l IH]; intros [|y k]; simpl;
    [reflexivity .. |].
  now rewrite IH.
Qed.

(** X21: what the create phase writes for an endpoint, the locator finds
    again.  Let the DNS name of the endpoint be the zone name or a non-empty
    name, a dot and the zone name, let its targets be pairwise different,
    and let the scan of the records held before find none for its targets.
    Once the records of the requests of the create phase are held, under
    whatever identifiers, [getRecIDs] returns exactly these identifiers, in
    target order. *)
Theorem getRecIDs_locates_created (zone : string) (ep : Endpoint)
    (old : list NameserverRecord) (ids : list Z) :
  (Endpoint.DNSName ep = zone
   \/ exists name, name <> "" /\ Endpoint.DNSName ep = name +:+ "." +:+ zone) ->
  NoDup (Endpoint.Targets ep) ->
  length ids = length (Endpoint.Targets ep) ->
  (forall target, target ∈ Endpoint.Targets ep ->
     getRecIDs_target zone old ep [] target = []) ->
  getRecIDs zone (old ++ created_records zone ep ids) ep = (ids, None).
Proof.
  intros Hname Hnodup Hlen Hold.
  assert (spec_fqdn zone (relativeName (Endpoint.DNSName ep) zone)
          = Endpoint.DNSName ep) as Hfq.
  { destruct Hname as [-> | (name & Hne & ->)].
    - now rewrite relativeName_apex.
    - rewrite relativeName_strips. destruct name; [contradiction | reflexivity]. }
  set (pairs := zip ids (Endpoint.Targets ep)).
  assert (map snd pairs = Endpoint.Targets ep) as Hsnd.
  { change (map snd pairs) with (pairs.*2). apply snd_zip. lia. }
  assert (map fst pairs = ids) as Hfst.
  { change (map fst pairs) with (pairs.*1). apply fst_zip. lia. }
  assert (flat_map
            (fun target =>
               map NameserverRecord.ID
                 (List.filter (spec_matches zone ep target)
                    (old ++ created_records zone ep ids)))
            (Endpoint.Targets ep) = ids) as Hfound.
  { transitivity (map fst pairs); [| exact Hfst].
    rewrite <- (located_one_by_one
                  (fun id target =>
                     NameserverRecord.mk id
                       (relativeName (Endpoint.DNSName ep) zone)
                       (Endpoint.RecordType ep) target
                       (Endpoint.RecordTTL ep) 0)
                  NameserverRecord.ID (spec_matches zone ep) pairs).
    - rewrite Hsnd. apply flat_map_on. intros target Hin.
      rewrite List.filter_app.
      pose proof (Hold target Hin) as Hnone.
      rewrite getRecIDs_target_spec in Hnone. simpl in Hnone.
      apply map_eq_nil in Hnone. rewrite Hnone. simpl.
      unfold created_records. now rewrite zip_with_map_zip.
    - reflexivity.
    - intros id target target'. now apply spec_matches_created.
    - now rewrite Hsnd. }
  unfold getRecIDs. rewrite getRecIDs_loop_spec. simpl. rewrite Hfound.
  apply Nat.eqb_eq in Hlen. now rewrite Hlen.
Qed.

Lemma getRecIDs_locates_created_witness :
  (Endpoint.DNSName www_endpoint = "example.com"
   \/ exists name,
        name <> "" /\ Endpoint.DNSName www_endpoint = name +:+ "." +:+ "example.com")
  /\ NoDup (Endpoint.Targets www_endpoint)
  /\ length [1%Z; 2%Z] = length (Endpoint.Targets www_endpoint)
  /\ (forall target, target ∈ Endpoint.Targets www_endpoint ->
        getRecIDs_target "example.com"
          [NameserverRecord.mk 0 "b" "A" "2.2.2.2" 300 0] www_endpoint []
          target = [])
  /\ getRecIDs "example.com"
       ([NameserverRecord.mk 0 "b" "A" "2.2.2.2" 300 0]
        ++ created_records "example.com" www_endpoint [1%Z; 2%Z])
       www_endpoint
     = ([1%Z; 2%Z], None).
Proof.
  assert (Endpoint.DNSName www_endpoint = "example.com"
          \/ exists name,
               name <> ""
               /\ Endpoint.DNSName www_endpoint
                  = name +:+ "." +:+ "example.com") as Hname
    by (right; exists "www"; split; [discriminate | reflexivity]).
  assert (NoDup (Endpoint.Targets www_endpoint)) as Hnodup
    by (vm_compute; compute_done).
  assert (length [1%Z; 2%Z] = length (Endpoint.Targets www_endpoint))
    as Hlen by reflexivity.
  assert (forall target, target ∈ Endpoint.Targets www_endpoint ->
            getRecIDs_target "example.com"
              [NameserverRecord.mk 0 "b" "A" "2.2.2.2" 300 0] www_endpoint []
              target = []) as Hold.
  { intros target Hin. simpl in Hin.
    apply elem_of_cons in Hin as [-> | Hin]; [reflexivity |].
    apply elem_of_cons in Hin as [-> | Hin]; [reflexivity |].
    now apply elem_of_nil in Hin. }
  split; [exact Hname |]. split; [exact Hnodup |]. split; [exact Hlen |].
  split; [exact Hold |].
  exact (getRecIDs_locates_created "example.com" www_endpoint
           [NameserverRecord.mk 0 "b" "A" "2.2.2.2" 300 0] [1%Z; 2%Z]
           Hname Hnodup Hlen Hold).
Defined.
